(** * gp-error-filter: round-trip validation of GP5 files

    A shallow embedding of [scripts/gp-error-filter.js]: the diagnostic
    normalizer ([extractDiagnostics] and its local [mapItem]), the per-file
    validator ([processFile]) and the batch driver ([main]).

    JavaScript values are embedded as a data type of plain values; the
    file system, the clock, [node:path] and the alphaTab library are
    capabilities of a [World] record.  Exceptions are explicit
    ([Throw]), [await] is sequencing in a state monad that also records
    every observable effect as an [event]. *)

From Stdlib Require Import String Ascii List ZArith Lia Bool Arith.
From Stdlib Require Import DecimalString.
Import ListNotations.
Open Scope string_scope.
Set Warnings "-register-all".

(** ** JavaScript values *)

(** Plain data as the script sees it.  Numbers are the integers (codes,
    lines, columns and offsets are integers; NaN and fractions do not
    occur in those fields); [VNum z] is the number [z] for a safe
    integer [z], the only integers JavaScript holds and prints exactly.
    No value is callable.  [VErr name fields] is an instance of an
    [Error] class called [name] with the own properties [fields]. *)
Inductive value : Type :=
| VUndef
| VNull
| VBool (b : bool)
| VNum (z : Z)
| VStr (s : string)
| VArr (items : list value)
| VObj (fields : list (string * value))
| VErr (name : string) (fields : list (string * value)).

(** Outcome of an expression or call that may throw. *)
Inductive result (A : Type) : Type :=
| Ok (a : A)
| Throw (e : value).
Arguments Ok {A} a.
Arguments Throw {A} e.

Definition rbind {A B} (r : result A) (k : A -> result B) : result B :=
  match r with
  | Ok a => k a
  | Throw e => Throw e
  end.

Declare Scope result_scope.
Delimit Scope result_scope with result.
Notation "x <-- r ;; k" := (rbind r (fun x => k))
  (at level 100, r at next level, right associativity) : result_scope.

(** [String(n)] for an integer. *)
Definition string_of_Z (z : Z) : string := NilZero.string_of_int (Z.to_int z).
Definition string_of_nat (n : nat) : string := NilZero.string_of_uint (Nat.to_uint n).

Fixpoint lookup (k : string) (fields : list (string * value)) : option value :=
  match fields with
  | [] => None
  | (k', v) :: rest => if String.eqb k' k then Some v else lookup k rest
  end.

(** [Array.prototype.join] on already converted elements. *)
Fixpoint join (sep : string) (l : list string) : string :=
  match l with
  | [] => ""
  | [x] => x
  | x :: rest => x ++ sep ++ join sep rest
  end.

Definition TypeError (msg : string) : value :=
  VErr "TypeError" [("message", VStr msg)].

(** What [String(v)] throws when [v] has no usable [toString]. *)
Definition cannot_convert : value :=
  TypeError "Cannot convert object to primitive value".

(** [String(v)].  A number prints as a decimal integer, which is what
    JavaScript gives every integer it holds exactly (the safe integers).
    An array joins its elements with commas, null and undefined elements
    giving the empty string.  A plain object gives "[object Object]"
    and an error follows [Error.prototype.toString], reading [name] and
    [message] through the instance; but an own property [toString]
    shadows the inherited method, and as no value of the model is
    callable the conversion then throws ([valueOf] cannot help: the
    inherited one returns the object). *)
Fixpoint js_String (v : value) : result string :=
  match v with
  | VUndef => Ok "undefined"
  | VNull => Ok "null"
  | VBool true => Ok "true"
  | VBool false => Ok "false"
  | VNum z => Ok (string_of_Z z)
  | VStr s => Ok s
  | VArr items =>
      rbind
        ((fix elements (l : list value) : result (list string) :=
            match l with
            | [] => Ok []
            | x :: rest =>
                rbind (match x with
                       | VUndef | VNull => Ok ""
                       | _ => js_String x
                       end)
                  (fun s => rbind (elements rest) (fun ss => Ok (s :: ss)))
            end) items)
        (fun ss => Ok (join "," ss))
  | VObj fields =>
      match lookup "toString" fields with
      | Some _ => Throw cannot_convert
      | None => Ok "[object Object]"
      end
  | VErr name fields =>
      match lookup "toString" fields with
      | Some _ => Throw cannot_convert
      | None =>
          rbind
            ((fix own_name (fs : list (string * value)) : result string :=
                match fs with
                | [] => Ok name
                | (k, x) :: rest =>
                    if String.eqb k "name"
                    then match x with VUndef => Ok "Error" | _ => js_String x end
                    else own_name rest
                end) fields)
            (fun n =>
               rbind
                 ((fix own_message (fs : list (string * value)) : result string :=
                     match fs with
                     | [] => Ok ""
                     | (k, x) :: rest =>
                         if String.eqb k "message"
                         then match x with VUndef => Ok "" | _ => js_String x end
                         else own_message rest
                     end) fields)
                 (fun msg =>
                    if String.eqb n "" then Ok msg
                    else if String.eqb msg "" then Ok n
                    else Ok (n ++ ": " ++ msg)))
      end
  end.

(** The text of a value whose conversion succeeds. *)
Definition text_of (v : value) : string :=
  match js_String v with
  | Ok s => s
  | Throw _ => ""
  end.

(** "${b}" of a boolean. *)
Definition string_of_bool (b : bool) : string :=
  if b then "true" else "false".

(** Truthiness: [ToBoolean]. *)
Definition truthy (v : value) : bool :=
  match v with
  | VUndef | VNull => false
  | VBool b => b
  | VNum z => negb (Z.eqb z 0)
  | VStr s => negb (String.eqb s "")
  | VArr _ | VObj _ | VErr _ _ => true
  end.

(** [v === undefined || v === null]. *)
Definition nullish (v : value) : bool :=
  match v with
  | VUndef | VNull => true
  | _ => false
  end.

Definition is_undefined (v : value) : bool :=
  match v with
  | VUndef => true
  | _ => false
  end.

(** [a || b], [a ?? b]. *)
Definition js_or (a b : value) : value := if truthy a then a else b.
Definition js_coalesce (a b : value) : value := if nullish a then b else a.

(** Property read [base.key] for the identifier keys the script uses
    (none of them is an array index).  Reading a property of null or
    undefined throws a TypeError; a missing property is undefined; an
    error inherits [name] and an empty [message] from its prototype. *)
Definition js_get (base : value) (key : string) : result value :=
  match base with
  | VUndef =>
      Throw (TypeError ("Cannot read properties of undefined (reading '" ++ key ++ "')"))
  | VNull =>
      Throw (TypeError ("Cannot read properties of null (reading '" ++ key ++ "')"))
  | VBool _ | VNum _ => Ok VUndef
  | VStr s =>
      if String.eqb key "length" then Ok (VNum (Z.of_nat (String.length s)))
      else Ok VUndef
  | VArr items =>
      if String.eqb key "length" then Ok (VNum (Z.of_nat (List.length items)))
      else Ok VUndef
  | VObj fields =>
      match lookup key fields with
      | Some v => Ok v
      | None => Ok VUndef
      end
  | VErr name fields =>
      match lookup key fields with
      | Some v => Ok v
      | None =>
          if String.eqb key "name" then Ok (VStr name)
          else if String.eqb key "message" then Ok (VStr "")
          else Ok VUndef
      end
  end.

(** Induction on values, through the arrays and the property lists. *)
Section ValueInduction.
Variable P : value -> Prop.
Hypothesis HUndef : P VUndef.
Hypothesis HNull : P VNull.
Hypothesis HBool : forall b, P (VBool b).
Hypothesis HNum : forall z, P (VNum z).
Hypothesis HStr : forall s, P (VStr s).
Hypothesis HArr : forall items, Forall P items -> P (VArr items).
Hypothesis HObj :
  forall fields, Forall (fun kv => P (snd kv)) fields -> P (VObj fields).
Hypothesis HErr :
  forall name fields,
    Forall (fun kv => P (snd kv)) fields -> P (VErr name fields).

Fixpoint value_nested_ind (v : value) : P v :=
  match v with
  | VUndef => HUndef
  | VNull => HNull
  | VBool b => HBool b
  | VNum z => HNum z
  | VStr s => HStr s
  | VArr items =>
      HArr items
        ((fix all (l : list value) : Forall P l :=
            match l with
            | [] => Forall_nil P
            | x :: rest => Forall_cons x (value_nested_ind x) (all rest)
            end) items)
  | VObj fields =>
      HObj fields
        ((fix all (l : list (string * value))
            : Forall (fun kv => P (snd kv)) l :=
            match l with
            | [] => Forall_nil _
            | (k, x) :: rest =>
                Forall_cons (k, x) (value_nested_ind x) (all rest)
            end) fields)
  | VErr name fields =>
      HErr name fields
        ((fix all (l : list (string * value))
            : Forall (fun kv => P (snd kv)) l :=
            match l with
            | [] => Forall_nil _
            | (k, x) :: rest =>
                Forall_cons (k, x) (value_nested_ind x) (all rest)
            end) fields)
  end.
End ValueInduction.

(** ** Diagnostics records *)

Module Position.
Record t : Type := mk { line : value; column : value; offset : value }.
End Position.

Module Item.
(** [end_] is the [end] property ([None] for null). *)
Record t : Type := mk {
  code : value;
  message : value;
  severity : value;
  start : Position.t;
  end_ : option Position.t
}.
End Item.

Module Diagnostics.
Record t : Type := mk {
  message : value;
  type : value;
  lexerErrors : list Item.t;
  parserErrors : list Item.t;
  semanticErrors : list Item.t
}.
End Diagnostics.

(** ** The diagnostic normalizer *)

(** The local function [mapItem] of [extractDiagnostics]. *)
Definition mapItem (item : value) : result Item.t :=
  (s <-- js_get item "start" ;;
   let start := js_or s (VObj []) in
   code <-- js_get item "code" ;;
   message <-- js_get item "message" ;;
   severity <-- js_get item "severity" ;;
   start_line <-- js_get start "line" ;;
   item_line <-- js_get item "line" ;;
   start_col <-- js_get start "col" ;;
   start_column <-- js_get start "column" ;;
   item_column <-- js_get item "column" ;;
   start_offset <-- js_get start "offset" ;;
   item_offset <-- js_get item "offset" ;;
   e <-- js_get item "end" ;;
   end_ <-- (if truthy e
             then (l <-- js_get e "line" ;;
                   c <-- js_get e "col" ;;
                   o <-- js_get e "offset" ;;
                   Ok (Some (Position.mk l c o)))
             else Ok None) ;;
   Ok (Item.mk
         (js_or code VNull)
         (js_or message VNull)
         (if is_undefined severity then VNull else severity)
         (Position.mk
            (js_coalesce start_line (js_coalesce item_line VNull))
            (js_coalesce start_col
               (js_coalesce start_column (js_coalesce item_column VNull)))
            (js_coalesce start_offset (js_coalesce item_offset VNull)))
         end_))%result.

(** [items.map(mapItem)]: stops at the first item on which the callback
    throws. *)
Fixpoint array_map {A} (f : value -> result A) (items : list value)
  : result (list A) :=
  match items with
  | [] => Ok []
  | x :: rest =>
      (y <-- f x ;;
       ys <-- array_map f rest ;;
       Ok (y :: ys))%result
  end.

(** One guarded assignment of the try block:
    [if (error.K && Array.isArray(error.K.items)) diag.F = error.K.items.map(mapItem)].
    [Array.isArray] is the match on [VArr]; [None] when the condition is
    false (the field keeps its value). *)
Definition mapCategory (error : value) (key : string)
  : result (option (list Item.t)) :=
  (d <-- js_get error key ;;
   if truthy d
   then (items <-- js_get d "items" ;;
         match items with
         | VArr l => (mapped <-- array_map mapItem l ;; Ok (Some mapped))
         | _ => Ok None
         end)
   else Ok None)%result.

Definition assigned (old : list Item.t) (new : option (list Item.t)) : list Item.t :=
  match new with
  | Some l => l
  | None => old
  end.

(** [extractDiagnostics(error)].  The object literal is built before
    the try block, so an exception of [String(error)] leaves the
    function.  The record [diag] is mutated inside the try block, so an
    exception there keeps the assignments made before it. *)
Definition extractDiagnostics (error : value) : result Diagnostics.t :=
  (message <-- (if truthy error
                then (m <-- js_get error "message" ;;
                      if truthy m then Ok m
                      else (s <-- js_String error ;; Ok (VStr s)))
                else (s <-- js_String error ;; Ok (VStr s))) ;;
   type <-- (if truthy error
             then (t <-- js_get error "type" ;;
                   if is_undefined t then Ok VNull else Ok t)
             else Ok VNull) ;;
   let diag := Diagnostics.mk message type [] [] [] in
   (* try *)
   match mapCategory error "lexerDiagnostics" with
   | Throw _ => Ok diag (* catch: ignore mapping problems *)
   | Ok lex =>
       let diag := Diagnostics.mk message type
                     (assigned [] lex) [] [] in
       match mapCategory error "parserDiagnostics" with
       | Throw _ => Ok diag
       | Ok par =>
           let diag := Diagnostics.mk message type
                         (assigned [] lex) (assigned [] par) [] in
           match mapCategory error "semanticDiagnostics" with
           | Throw _ => Ok diag
           | Ok sem =>
               Ok (Diagnostics.mk message type
                     (assigned [] lex) (assigned [] par) (assigned [] sem))
           end
       end
   end)%result.

(** ** File results and the batch result *)

Inductive Status : Type := passed | failed | error.

Definition Status_eqb (a b : Status) : bool :=
  match a, b with
  | passed, passed | failed, failed | error, error => true
  | _, _ => false
  end.

Module FileResult.
(** A property the object literal does not have is [None]. *)
Record t : Type := mk {
  input : string;
  atex : option string;
  status : Status;
  errorCount : option nat;
  diagnostics : option Diagnostics.t;
  message : option value
}.
End FileResult.

Module Summary.
Record t : Type := mk {
  generatedAt : string;
  inputDir : string;
  outDir : string;
  totalFiles : nat;
  passed : nat;
  failed : nat;
  results : list FileResult.t
}.
End Summary.

(** The result of [parseArgs]. *)
Module Options.
Record t : Type := mk {
  in_ : string;
  out : string;
  dryRun : bool;
  verbose : bool
}.
End Options.

(** ** Effects *)

(** What is handed to [fs.writeFile]: a text value, or the report
    [JSON.stringify(summary, null, 2)], kept as the summary it encodes. *)
Inductive content : Type :=
| CText (v : value)
| CReport (summary : Summary.t).

(** Every call that reaches the outside, in program order. *)
Inductive event : Type :=
| EvStdout (s : string)
| EvConsoleLog (args : list value)
| EvConsoleError (args : list value)
| EvReadFile (path : string)
| EvReaddir (path : string)
| EvMkdir (path : string)
| EvCopyFile (src dest : string)
| EvWriteFile (path : string) (c : content).

(** The capabilities the script runs against.  [S] is the state of the
    outside world; a file-system call may fail with the message of the
    [Error] it rejects with.  The alphaTab calls are functions of their
    arguments; [readScore] takes the text its importer was initialised
    from. *)
Record World (S Bytes Score : Type) : Type := {
  path_resolve : string -> string;
  path_join : string -> string -> string;
  path_dirname : string -> string;
  path_basename : string -> string -> string;
  path_extname : string -> string;
  fs_readFile : string -> S -> (Bytes + string) * S;
  fs_readdir : string -> S -> (list string + string) * S;
  fs_mkdir : string -> S -> option string * S;
  fs_copyFile : string -> string -> S -> option string * S;
  fs_writeFile : string -> content -> S -> option string * S;
  toISOString : S -> string;
  loadScoreFromBytes : Bytes -> result Score;
  exportToString : Score -> result string;
  initFromString : string -> result unit;
  readScore : string -> result unit
}.
Arguments path_resolve {S Bytes Score} w _.
Arguments path_join {S Bytes Score} w _ _.
Arguments path_dirname {S Bytes Score} w _.
Arguments path_basename {S Bytes Score} w _ _.
Arguments path_extname {S Bytes Score} w _.
Arguments fs_readFile {S Bytes Score} w _ _.
Arguments fs_readdir {S Bytes Score} w _ _.
Arguments fs_mkdir {S Bytes Score} w _ _.
Arguments fs_copyFile {S Bytes Score} w _ _ _.
Arguments fs_writeFile {S Bytes Score} w _ _ _.
Arguments toISOString {S Bytes Score} w _.
Arguments loadScoreFromBytes {S Bytes Score} w _.
Arguments exportToString {S Bytes Score} w _.
Arguments initFromString {S Bytes Score} w _.
Arguments readScore {S Bytes Score} w _.

(** Computations: state, exceptions, and the events emitted. *)
Definition M (S A : Type) : Type := S -> result A * S * list event.

Definition ret {S A} (a : A) : M S A := fun s => (Ok a, s, []).

Definition bind {S A B} (m : M S A) (k : A -> M S B) : M S B :=
  fun s =>
    match m s with
    | (Ok a, s1, ev1) =>
        match k a s1 with
        | (r, s2, ev2) => (r, s2, (ev1 ++ ev2)%list)
        end
    | (Throw e, s1, ev1) => (Throw e, s1, ev1)
    end.

(** [try { m } catch (e) { h e }]. *)
Definition try_catch {S A} (m : M S A) (h : value -> M S A) : M S A :=
  fun s =>
    match m s with
    | (Ok a, s1, ev1) => (Ok a, s1, ev1)
    | (Throw e, s1, ev1) =>
        match h e s1 with
        | (r, s2, ev2) => (r, s2, (ev1 ++ ev2)%list)
        end
    end.

(** A try block that assigns a variable declared before it, split at the
    assignment: [let x = null; try { x = m; k x } catch (e) { h x e }].
    The handler sees [None] when [m] throws and the assigned value
    afterwards. *)
Definition try_assign {S A B} (m : M S A) (k : A -> M S B)
    (h : option A -> value -> M S B) : M S B :=
  fun s =>
    match m s with
    | (Throw e, s1, ev1) =>
        match h None e s1 with
        | (r, s2, ev2) => (r, s2, (ev1 ++ ev2)%list)
        end
    | (Ok a, s1, ev1) =>
        match try_catch (k a) (h (Some a)) s1 with
        | (r, s2, ev2) => (r, s2, (ev1 ++ ev2)%list)
        end
    end.

Definition lift {S A} (r : result A) : M S A := fun s => (r, s, []).

Definition emit {S} (e : event) : M S unit := fun s => (Ok tt, s, [e]).

Declare Scope io_scope.
Delimit Scope io_scope with io.
Notation "x <- m ;; k" := (bind m (fun x => k))
  (at level 100, m at next level, right associativity) : io_scope.
Notation "m ;;; k" := (bind m (fun _ => k))
  (at level 100, right associativity) : io_scope.

Definition outcome {S A} (r : result A * S * list event) : result A := fst (fst r).
Definition events {S A} (r : result A * S * list event) : list event := snd r.

(** The [Error] a file-system call rejects with. *)
Definition node_error (msg : string) : value :=
  VErr "Error" [("message", VStr msg)].

Definition console_log {S} (args : list value) : M S unit := emit (EvConsoleLog args).
Definition console_error {S} (args : list value) : M S unit := emit (EvConsoleError args).
Definition stdout_write {S} (s : string) : M S unit := emit (EvStdout s).

(** ** Strings *)

Definition lower_ascii (c : ascii) : ascii :=
  let n := nat_of_ascii c in
  if Nat.leb 65 n && Nat.leb n 90 then ascii_of_nat (n + 32) else c.

(** [s.toLowerCase()] on the ASCII letters, which is all the suffix test
    of [main] can see. *)
Fixpoint toLowerCase (s : string) : string :=
  match s with
  | EmptyString => EmptyString
  | String c rest => String (lower_ascii c) (toLowerCase rest)
  end.

(** [s.endsWith(suffix)]. *)
Fixpoint endsWith (s suffix : string) : bool :=
  String.eqb s suffix ||
  match s with
  | EmptyString => false
  | String _ rest => endsWith rest suffix
  end.

Definition newline : string := String (ascii_of_nat 10) EmptyString.

(** [arr.filter(p).length]. *)
Definition count_status (st : Status) (results : list FileResult.t) : nat :=
  List.length (filter (fun r => Status_eqb (FileResult.status r) st) results).

(** [(arr?.length || 0)]. *)
Definition length_or_0 {A} (arr : list A) : nat :=
  match List.length arr with
  | 0 => 0
  | n => n
  end.

(** "${x}" of a property holding a number, undefined when absent. *)
Definition template_count (n : option nat) : string :=
  match n with
  | Some k => string_of_nat k
  | None => "undefined"
  end.

(** ** The validator and the batch driver *)

Section Pipeline.
Context {S Bytes Score : Type}.
Variable w : World S Bytes Score.

Local Open Scope io_scope.

(** The [fs.promises] calls: the event first, then the outcome. *)
Definition fs_call (ev : event) (f : S -> option string * S) : M S unit :=
  fun s =>
    match f s with
    | (None, s') => (Ok tt, s', [ev])
    | (Some msg, s') => (Throw (node_error msg), s', [ev])
    end.

Definition fs_query {A} (ev : event) (f : S -> (A + string) * S) : M S A :=
  fun s =>
    match f s with
    | (inl a, s') => (Ok a, s', [ev])
    | (inr msg, s') => (Throw (node_error msg), s', [ev])
    end.

Definition readFile (path : string) : M S Bytes :=
  fs_query (EvReadFile path) (fs_readFile w path).

Definition readdir (path : string) : M S (list string) :=
  fs_query (EvReaddir path) (fs_readdir w path).

Definition writeFile (path : string) (c : content) : M S unit :=
  fs_call (EvWriteFile path c) (fs_writeFile w path c).

(** [ensureDir(dir)]: [fs.mkdir(dir, { recursive: true })]. *)
Definition ensureDir (dir : string) : M S unit :=
  fs_call (EvMkdir dir) (fs_mkdir w dir).

(** [copyFile(src, dest)]. *)
Definition copyFile (src dest : string) : M S unit :=
  ensureDir (path_dirname w dest) ;;;
  fs_call (EvCopyFile src dest) (fs_copyFile w src dest).

(** The object returned at the end of the catch block of
    [processFile]. *)
Definition failedResult (fileName atexName : string)
    (errorCount : nat) (diagnostics : Diagnostics.t) : FileResult.t :=
  FileResult.mk fileName (Some atexName) failed
    (Some errorCount) (Some diagnostics) None.

Definition passedResult (fileName atexName : string) : FileResult.t :=
  FileResult.mk fileName (Some atexName) passed None None None.

(** The catch block of [processFile].  [atex] is the variable declared
    before the try: null until the export call has returned.  (The
    object [reportItem] is built and never read; it is left out.) *)
Definition processFile_catch (outDir inputPath fileName atexName : string)
    (options : Options.t) (atex : value) (error : value) : M S FileResult.t :=
  diagnostics <- lift (extractDiagnostics error) ;;
  let errorCount :=
    length_or_0 (Diagnostics.lexerErrors diagnostics)
    + length_or_0 (Diagnostics.parserErrors diagnostics)
    + length_or_0 (Diagnostics.semanticErrors diagnostics) in
  (if negb (Options.dryRun options)
   then
     let targetDir := path_join w outDir "failed_gp5" in
     ensureDir targetDir ;;;
     let destPath := path_join w targetDir fileName in
     try_catch (copyFile inputPath destPath)
       (fun e =>
          m <- lift (js_get e "message") ;;
          console_error [VStr "Failed to copy failed GP5:"; m]) ;;;
     let atexDir := path_join w outDir "fail_atex" in
     ensureDir atexDir ;;;
     let atexPath := path_join w atexDir atexName in
     try_catch (writeFile atexPath (CText atex))
       (fun e =>
          m <- lift (js_get e "message") ;;
          console_error [VStr "Failed to save alphaTex:"; m])
   else ret tt) ;;;
  ret (failedResult fileName atexName errorCount diagnostics).

(** The try block up to and including the assignment of [atex]. *)
Definition processFile_export (inputPath : string) : M S string :=
  data <- readFile inputPath ;;
  score <- lift (loadScoreFromBytes w data) ;;
  lift (exportToString w score).

(** The rest of the try block. *)
Definition processFile_reimport (fileName atexName atex : string)
  : M S FileResult.t :=
  lift (initFromString w atex) ;;;
  lift (readScore w atex) ;;;
  ret (passedResult fileName atexName).

(** [processFile(inDir, outDir, fileName, options)].  One try block
    with one handler; the handler reads [atex], which the block
    assigns once. *)
Definition processFile (inDir outDir fileName : string) (options : Options.t)
  : M S FileResult.t :=
  let inputPath := path_join w inDir fileName in
  let baseName := path_basename w fileName (path_extname w fileName) in
  let atexName := (baseName ++ ".atex")%string in
  (if Options.verbose options
   then console_log [VStr ("Processing: " ++ fileName)]
   else ret tt) ;;;
  try_assign
    (processFile_export inputPath)
    (processFile_reimport fileName atexName)
    (fun atex =>
       processFile_catch outDir inputPath fileName atexName options
         match atex with
         | Some text => VStr text
         | None => VNull
         end).

Definition errorResult (fileName : string) (message : value) : FileResult.t :=
  FileResult.mk fileName None error None None (Some message).

(** The body of the for loop of [main] at index [i]: returns the
    arrays [results] and [logLines] after its pushes. *)
Definition main_step (inDir outDir : string) (opts : Options.t) (total i : nat)
    (fileName : string) (results : list FileResult.t) (logLines : list string)
  : M S (list FileResult.t * list string) :=
  stdout_write ("[" ++ string_of_nat (i + 1) ++ "/" ++ string_of_nat total
                ++ "] " ++ fileName ++ " ... ") ;;;
  try_catch
    (res <- processFile inDir outDir fileName opts ;;
     let results := (results ++ [res])%list in
     if Status_eqb (FileResult.status res) passed
     then
       console_log [VStr "OK"] ;;;
       ret (results, (logLines ++ [(fileName ++ ": PASSED")%string])%list)
     else
       let line := ("FAILED (" ++ template_count (FileResult.errorCount res)
                    ++ " errors)")%string in
       console_log [VStr line] ;;;
       ret (results, (logLines ++ [(fileName ++ ": " ++ line)%string])%list))
    (fun e =>
       m <- lift (js_get e "message") ;;
       console_error [VStr "ERR"; m] ;;;
       text <- lift (js_String m) ;;
       ret ((results ++ [errorResult fileName m])%list,
            (logLines ++ [(fileName ++ ": ERROR (" ++ text ++ ")")%string])%list)).

(** The for loop of [main] from index [i], over the files not yet
    visited. *)
Fixpoint main_loop (inDir outDir : string) (opts : Options.t) (total i : nat)
    (rest : list string) (results : list FileResult.t) (logLines : list string)
  : M S (list FileResult.t * list string) :=
  match rest with
  | [] => ret (results, logLines)
  | fileName :: rest' =>
      st <- main_step inDir outDir opts total i fileName results logLines ;;
      main_loop inDir outDir opts total (i + 1) rest' (fst st) (snd st)
  end.

Definition is_gp5 (f : string) : bool := endsWith (toLowerCase f) ".gp5".

(** [main()], after [parseArgs]. *)
Definition main (opts : Options.t) : M S unit :=
  let inDir := path_resolve w (Options.in_ opts) in
  let outDir := path_resolve w (Options.out opts) in
  let reportPath := path_join w outDir "report.json" in
  let logPath := path_join w outDir "log.txt" in
  console_log [VStr ("Input dir: " ++ inDir)] ;;;
  console_log [VStr ("Output dir: " ++ outDir)] ;;;
  console_log [VStr ("Dry-run: " ++ string_of_bool (Options.dryRun opts))] ;;;
  ensureDir outDir ;;;
  files <- readdir inDir ;;
  let gp5Files := filter is_gp5 files in
  st <- main_loop inDir outDir opts (List.length gp5Files) 0 gp5Files [] [] ;;
  let results := fst st in
  let logLines := snd st in
  fun s =>
    let summary :=
      Summary.mk (toISOString w s) inDir outDir (List.length gp5Files)
        (count_status passed results) (count_status failed results) results in
    (writeFile reportPath (CReport summary) ;;;
     writeFile logPath (CText (VStr (join newline logLines))) ;;;
     console_log [VStr (newline ++ "Summary:")] ;;;
     console_log [VStr ("  Total: " ++ string_of_nat (Summary.totalFiles summary))] ;;;
     console_log [VStr ("  Passed: " ++ string_of_nat (Summary.passed summary))] ;;;
     console_log [VStr ("  Failed: " ++ string_of_nat (Summary.failed summary))] ;;;
     console_log [VStr ("Report: " ++ reportPath)] ;;;
     console_log [VStr ("Log: " ++ logPath)] ;;;
     (if Options.verbose opts
      then console_log [VStr (newline ++ "Detailed results saved to report.json")]
      else ret tt)) s.

End Pipeline.

(** ** Reading a run *)

(** The reports handed to [fs.writeFile] during a run. *)
Fixpoint reports_of (evs : list event) : list Summary.t :=
  match evs with
  | [] => []
  | EvWriteFile _ (CReport b) :: rest => b :: reports_of rest
  | _ :: rest => reports_of rest
  end.

(** The line of the flat log that the log schema gives a file result. *)
Definition logLine (r : FileResult.t) : string :=
  match FileResult.status r with
  | passed => FileResult.input r ++ ": PASSED"
  | failed =>
      FileResult.input r ++ ": FAILED ("
      ++ template_count (FileResult.errorCount r) ++ " errors)"
  | error =>
      FileResult.input r ++ ": ERROR ("
      ++ match FileResult.message r with
         | Some m => text_of m
         | None => "undefined"
         end ++ ")"
  end.

(** Sum of the lengths of the three diagnostic sequences. *)
Definition diagnosticsTotal (d : Diagnostics.t) : nat :=
  List.length (Diagnostics.lexerErrors d)
  + List.length (Diagnostics.parserErrors d)
  + List.length (Diagnostics.semanticErrors d).

(** A name ends with ".gp5" when letter case is ignored. *)
Definition ends_with_gp5_ignoring_case (f : string) : Prop :=
  exists (pre : string) (g p : ascii),
    f = (pre ++ String "." (String g (String p "5")))%string
    /\ (g = "g"%char \/ g = "G"%char)
    /\ (p = "p"%char \/ p = "P"%char).

(** An artifact write: a copy into, or a text written under, the output
    directory's artifact folders. *)
Definition is_artifact_write (ev : event) : bool :=
  match ev with
  | EvCopyFile _ _ => true
  | EvWriteFile _ (CText _) => true
  | _ => false
  end.

(** The events that leave the file system as it is. *)
Definition quiet (ev : event) : Prop :=
  match ev with
  | EvStdout _ | EvConsoleLog _ | EvConsoleError _ | EvReadFile _ => True
  | _ => False
  end.

(** [triple m Q E V]: from every state, [m] emits only events in [V],
    returns only values in [Q] and throws only values in [E]. *)
Definition triple {S A} (m : M S A) (Q : A -> Prop) (E : value -> Prop)
    (V : event -> Prop) : Prop :=
  forall s,
    Forall V (events (m s))
    /\ match outcome (m s) with
       | Ok a => Q a
       | Throw e => E e
       end.

Definition is_node_error (e : value) : Prop := exists msg, e = node_error msg.

Definition not_report (ev : event) : Prop :=
  match ev with
  | EvWriteFile _ (CReport _) => False
  | _ => True
  end.

(** The shape of the result of the catch block. *)
Definition failed_shape (fileName atexName : string) (r : FileResult.t) : Prop :=
  exists d, r = failedResult fileName atexName (diagnosticsTotal d) d.

(** What [processFile] and the catch clause of [main] guarantee of a
    recorded result. *)
Definition shape_ok (r : FileResult.t) : Prop :=
  match FileResult.status r with
  | failed =>
      exists d, FileResult.diagnostics r = Some d
                /\ FileResult.errorCount r = Some (diagnosticsTotal d)
  | _ => True
  end.

(** The postconditions of one iteration and of the rest of the loop of
    [main]. *)
Definition step_post (fileName : string) (results : list FileResult.t)
    (logLines : list string) (st : list FileResult.t * list string) : Prop :=
  exists r,
    fst st = (results ++ [r])%list
    /\ snd st = (logLines ++ [logLine r])%list
    /\ FileResult.input r = fileName
    /\ shape_ok r.

Definition loop_post (rest : list string) (results : list FileResult.t)
    (logLines : list string) (st : list FileResult.t * list string) : Prop :=
  exists new,
    fst st = (results ++ new)%list
    /\ snd st = (logLines ++ map logLine new)%list
    /\ map FileResult.input new = rest
    /\ Forall shape_ok new.

(** The summary [main] builds from the listing and the results. *)
Definition summary_of {S Bytes Score} (w : World S Bytes Score)
    (opts : Options.t) (now : string)
    (files : list string) (results : list FileResult.t) : Summary.t :=
  Summary.mk now (path_resolve w (Options.in_ opts))
    (path_resolve w (Options.out opts))
    (List.length (filter is_gp5 files))
    (count_status passed results) (count_status failed results) results.

(** The first value of a list of alternatives that is neither null nor
    undefined, null when there is none: [a ?? b ?? null]. *)
Fixpoint first_non_null (alternatives : list value) : value :=
  match alternatives with
  | [] => VNull
  | v :: rest => if nullish v then first_non_null rest else v
  end.

(** [base.key] as a value: undefined where the read would throw. *)
Definition prop (base : value) (key : string) : value :=
  match js_get base key with
  | Ok v => v
  | Throw _ => VUndef
  end.

(** ** A small corpus

    A POSIX rendering of [node:path] and a directory with four scores:
    one that round-trips, one whose re-import reports a semantic
    diagnostic, one whose bytes the loader rejects, and a file that is
    not a score.  With [blocked] the path [failed_gp5] under the output
    directory cannot be created (a regular file of that name exists). *)

Fixpoint last_dot (s : string) : option string :=
  match s with
  | EmptyString => None
  | String c rest =>
      match last_dot rest with
      | Some ext => Some ext
      | None => if Ascii.eqb c "." then Some s else None
      end
  end.

(** [path.extname] of a file name: from its last dot, a dot that
    opens the name not counting. *)
Definition posix_extname (p : string) : string :=
  match p with
  | EmptyString => ""
  | String _ rest =>
      if String.eqb p ".." then ""
      else match last_dot rest with
           | Some ext => ext
           | None => ""
           end
  end.

Definition posix_basename (p ext : string) : string :=
  if endsWith p ext
  then substring 0 (String.length p - String.length ext) p
  else p.

Fixpoint posix_dirname (p : string) : string :=
  match p with
  | EmptyString => EmptyString
  | String c rest =>
      if existsb (Ascii.eqb "/") (list_ascii_of_string rest)
      then String c (posix_dirname rest)
      else EmptyString
  end.

Definition semanticFailure : value :=
  VErr "AlphaTexErrorWithDiagnostics"
    [("message", VStr "Error parsing alphaTex, check the diagnostics for details");
     ("lexerDiagnostics", VObj [("items", VArr [])]);
     ("parserDiagnostics", VObj [("items", VArr [])]);
     ("semanticDiagnostics",
      VObj [("items",
             VArr [VObj [("code", VNum 209);
                         ("message", VStr "Unexpected percussion articulation value");
                         ("severity", VNum 2);
                         ("start", VObj [("line", VNum 3); ("col", VNum 5);
                                         ("offset", VNum 40)]);
                         ("end", VObj [("line", VNum 3); ("col", VNum 9);
                                       ("offset", VNum 44)])];
                   VObj [("code", VNum 218);
                         ("message", VStr "Wrong note kind");
                         ("line", VNum 7); ("column", VNum 2)]])])].

Definition unsupportedFormat : value :=
  VErr "UnsupportedFormatError"
    [("message", VStr "No compatible importer found for file")].

Definition demoWorld (blocked : bool) : World unit string string := {|
  path_resolve := fun p => "/repo/" ++ p;
  path_join := fun a b => a ++ "/" ++ b;
  path_dirname := posix_dirname;
  path_basename := posix_basename;
  path_extname := posix_extname;
  fs_readFile := fun p s =>
    if String.eqb p "/repo/data/raw/Good.gp5" then (inl "GOOD", s)
    else if String.eqb p "/repo/data/raw/Broken.GP5" then (inl "BROKEN", s)
    else if String.eqb p "/repo/data/raw/Corrupt.gp5" then (inl "CORRUPT", s)
    else (inr ("ENOENT: no such file or directory, open '" ++ p ++ "'"), s);
  fs_readdir := fun p s =>
    if String.eqb p "/repo/data/raw"
    then (inl ["Good.gp5"; "README.md"; "Broken.GP5"; "Corrupt.gp5"], s)
    else (inr ("ENOENT: no such file or directory, scandir '" ++ p ++ "'"), s);
  fs_mkdir := fun p s =>
    if blocked && String.eqb p "/repo/data/error/failed_gp5"
    then (Some ("EEXIST: file already exists, mkdir '" ++ p ++ "'"), s)
    else (None, s);
  fs_copyFile := fun _ _ s => (None, s);
  fs_writeFile := fun _ c s =>
    match c with
    | CText (VStr _) | CReport _ => (None, s)
    | CText _ =>
        (Some "The 'data' argument must be of type string or an instance of Buffer, TypedArray, or DataView", s)
    end;
  toISOString := fun _ => "2025-01-01T00:00:00.000Z";
  loadScoreFromBytes := fun data =>
    if String.eqb data "CORRUPT" then Throw unsupportedFormat else Ok data;
  exportToString := fun score => Ok ("\title " ++ score);
  initFromString := fun _ => Ok tt;
  readScore := fun text =>
    if String.eqb text "\title BROKEN" then Throw semanticFailure else Ok tt
|}.

Definition demoOptions (dryRun : bool) : Options.t :=
  Options.mk "data/raw" "data/error" dryRun false.

(** The report of a run over the corpus. *)
Definition demoReports (blocked dryRun : bool) : list Summary.t :=
  reports_of (events (main (demoWorld blocked) (demoOptions dryRun) tt)).

(** File name, status and error count of every result of the reports. *)
Definition recorded (reports : list Summary.t)
  : list (string * Status * option nat) :=
  map (fun r => (FileResult.input r, FileResult.status r, FileResult.errorCount r))
    (concat (map Summary.results reports)).

Definition emptySummary : Summary.t := Summary.mk "" "" "" 0 0 0 [].

(** The report of the run over the corpus with every directory
    available, and its entry for the score whose re-import fails. *)
Definition demoReport : Summary.t := hd emptySummary (demoReports false false).

Definition demoBroken : FileResult.t :=
  nth 1 (Summary.results demoReport) (FileResult.mk "" None passed None None None).

(** ** The command line and the script entry *)

(** The object [opts] of [parseArgs]: [in] and [out] hold what
    [args[++i]] gave, which is undefined ([None]) past the end of the
    arguments. *)
Module RawOptions.
Record t : Type := mk {
  in_ : option string;
  out : option string;
  dryRun : bool;
  verbose : bool
}.
End RawOptions.

(** [parseArgs] returns [opts] or leaves through [process.exit]. *)
Inductive parse_outcome : Type :=
| Parsed (opts : RawOptions.t)
| Exited (code : Z).

Definition usage : string :=
  "Usage: node scripts/gp-error-filter.js --in <gp-dir> --out <error-dir> [--dry-run] [--verbose]".

(** The for loop of [parseArgs] over the arguments from index [i] on;
    [--in] and [--out] take the next argument with [args[++i]], whatever
    it is.  [console.warn] is Node's alias of [console.error]. *)
Fixpoint parseArgs_loop (args : list string) (opts : RawOptions.t)
  : parse_outcome * list event :=
  match args with
  | [] => (Parsed opts, [])
  | a :: rest =>
      if String.eqb a "--in" || String.eqb a "--input" then
        match rest with
        | v :: rest' =>
            parseArgs_loop rest'
              (RawOptions.mk (Some v) (RawOptions.out opts)
                 (RawOptions.dryRun opts) (RawOptions.verbose opts))
        | [] =>
            (Parsed (RawOptions.mk None (RawOptions.out opts)
                       (RawOptions.dryRun opts) (RawOptions.verbose opts)), [])
        end
      else if String.eqb a "--out" || String.eqb a "--output" then
        match rest with
        | v :: rest' =>
            parseArgs_loop rest'
              (RawOptions.mk (RawOptions.in_ opts) (Some v)
                 (RawOptions.dryRun opts) (RawOptions.verbose opts))
        | [] =>
            (Parsed (RawOptions.mk (RawOptions.in_ opts) None
                       (RawOptions.dryRun opts) (RawOptions.verbose opts)), [])
        end
      else if String.eqb a "--dry-run" then
        parseArgs_loop rest
          (RawOptions.mk (RawOptions.in_ opts) (RawOptions.out opts)
             true (RawOptions.verbose opts))
      else if String.eqb a "--verbose" then
        parseArgs_loop rest
          (RawOptions.mk (RawOptions.in_ opts) (RawOptions.out opts)
             (RawOptions.dryRun opts) true)
      else if String.eqb a "--help" || String.eqb a "-h" then
        (Exited 0, [EvConsoleLog [VStr usage]])
      else
        match parseArgs_loop rest opts with
        | (r, evs) => (r, EvConsoleError [VStr "Unknown arg:"; VStr a] :: evs)
        end
  end.

(** [parseArgs()] on [process.argv.slice(2)]. *)
Definition parseArgs (args : list string) : parse_outcome * list event :=
  parseArgs_loop args
    (RawOptions.mk (Some "data/raw") (Some "data/error") false false).

Definition double_quote : string := String (ascii_of_nat 34) EmptyString.

(** What [path.resolve(undefined)] throws. *)
Definition invalid_path_argument : value :=
  TypeError ("The " ++ double_quote ++ "paths[0]" ++ double_quote
             ++ " argument must be of type string. Received undefined").

(** [main()] from its first statement: [parseArgs] has returned [raw];
    the two [path.resolve] calls throw on an undefined directory before
    anything is printed. *)
Definition main_of {S Bytes Score} (w : World S Bytes Score)
    (raw : RawOptions.t) : M S unit :=
  match RawOptions.in_ raw, RawOptions.out raw with
  | Some i, Some o =>
      main w (Options.mk i o (RawOptions.dryRun raw) (RawOptions.verbose raw))
  | _, _ => lift (Throw invalid_path_argument)
  end.

Definition missing_dependency : string :=
  "Missing dependency: @coderline/alphatab." ++ newline
  ++ "Run: npm install @coderline/alphatab".

(** The script run as the main module.  [installed] tells whether
    [require('@coderline/alphatab')] succeeds; when it does not, the
    module prints [missing_dependency] and leaves with status 2 before
    anything else.  Otherwise
    [main().catch(err => { console.error('Fatal error:', err); process.exit(1); })]
    runs.  The result is the status given to [process.exit], or [None]
    when the script runs to its end. *)
Definition script {S Bytes Score} (w : World S Bytes Score)
    (installed : bool) (args : list string) (s : S)
  : option Z * S * list event :=
  if installed then
    match parseArgs args with
    | (Exited code, evs) => (Some code, s, evs)
    | (Parsed raw, evs) =>
        match main_of w raw s with
        | (Ok _, s', evs') => (None, s', (evs ++ evs')%list)
        | (Throw err, s', evs') =>
            (Some 1%Z, s',
             (evs ++ evs' ++ [EvConsoleError [VStr "Fatal error:"; err]])%list)
        end
    end
  else (Some 2%Z, s, [EvConsoleError [VStr missing_dependency]]).

(** ** Further vocabulary *)

(** The three objects a run records for a file. *)
Definition recorded_shape {S Bytes Score} (w : World S Bytes Score)
    (fileName : string) (r : FileResult.t) : Prop :=
  let atexName :=
    (path_basename w fileName (path_extname w fileName) ++ ".atex")%string in
  r = passedResult fileName atexName
  \/ (exists d, r = failedResult fileName atexName (diagnosticsTotal d) d)
  \/ (exists msg, r = errorResult fileName (VStr msg)).

(** The items of the collection [error.key.items] that the normalizer
    maps: none when the collection is missing or [items] is not an
    array. *)
Definition items_of (error : value) (key : string) : list value :=
  if truthy (prop error key)
  then match prop (prop error key) "items" with
       | VArr l => l
       | _ => []
       end
  else [].

(** The texts given to [process.stdout.write], call by call.  (What
    [console.log] prints, on standard output too, is not among them.) *)
Fixpoint stdout_writes (evs : list event) : list string :=
  match evs with
  | [] => []
  | EvStdout t :: rest => t :: stdout_writes rest
  | _ :: rest => stdout_writes rest
  end.

(** The progress text of the file at index [i] of [total]. *)
Definition progress (total i : nat) (fileName : string) : string :=
  "[" ++ string_of_nat (i + 1) ++ "/" ++ string_of_nat total
  ++ "] " ++ fileName ++ " ... ".

Fixpoint progress_from (total i : nat) (files : list string) : list string :=
  match files with
  | [] => []
  | f :: rest => progress total i f :: progress_from total (i + 1) rest
  end.

(** The console lines of [main] before the output directory is
    created, and after the log is written. *)
Definition main_banner {S Bytes Score} (w : World S Bytes Score)
    (opts : Options.t) : list event :=
  [EvConsoleLog [VStr ("Input dir: " ++ path_resolve w (Options.in_ opts))];
   EvConsoleLog [VStr ("Output dir: " ++ path_resolve w (Options.out opts))];
   EvConsoleLog [VStr ("Dry-run: " ++ string_of_bool (Options.dryRun opts))]].

Definition main_footer {S Bytes Score} (w : World S Bytes Score)
    (opts : Options.t) (b : Summary.t) : list event :=
  let outDir := path_resolve w (Options.out opts) in
  ([EvConsoleLog [VStr (newline ++ "Summary:")];
    EvConsoleLog [VStr ("  Total: " ++ string_of_nat (Summary.totalFiles b))];
    EvConsoleLog [VStr ("  Passed: " ++ string_of_nat (Summary.passed b))];
    EvConsoleLog [VStr ("  Failed: " ++ string_of_nat (Summary.failed b))];
    EvConsoleLog [VStr ("Report: " ++ path_join w outDir "report.json")];
    EvConsoleLog [VStr ("Log: " ++ path_join w outDir "log.txt")]]
   ++ (if Options.verbose opts
       then [EvConsoleLog [VStr (newline ++ "Detailed results saved to report.json")]]
       else []))%list.

(** A run of [processFile] that went through its catch block: a
    [failed] result; or the exception of [String(error)], when the
    caught value has no message and cannot be converted; or, outside a
    dry run, the exception of a rejected file-system call. *)
Definition handled_as_failure {S} (options : Options.t)
    (run : result FileResult.t * S * list event) : Prop :=
  match outcome run with
  | Ok r => FileResult.status r = failed
  | Throw e =>
      e = cannot_convert
      \/ (Options.dryRun options = false /\ is_node_error e)
  end.

(** The events [processFile] can emit. *)
Definition file_event (ev : event) : Prop :=
  match ev with
  | EvConsoleLog _ | EvConsoleError _ | EvReadFile _ | EvMkdir _
  | EvCopyFile _ _ | EvWriteFile _ (CText _) => True
  | _ => False
  end.

(** The command line ends with a flag that wants a value. *)
Definition dangling (args : list string) (flag alias : string) : Prop :=
  exists pre f, args = (pre ++ [f])%list /\ (f = flag \/ f = alias).

(** What can leave [processFile]: the error of a rejected file-system
    call, or the exception of [String(error)] in its catch block. *)
Definition is_rejection (e : value) : Prop :=
  is_node_error e \/ e = cannot_convert.

(** The top-level message of a failure can be obtained: the failure has
    a truthy [message], or [String(error)] returns. *)
Definition message_obtained (error : value) : Prop :=
  (truthy error && truthy (prop error "message") = true)
  \/ exists s, js_String error = Ok s.

(** No item of the collection is null or undefined. *)
Definition mappable (error : value) (key : string) : bool :=
  forallb (fun x => negb (nullish x)) (items_of error key).

(** A category that was reached and mapped holds the normalized items
    of its collection, one per item and in order; a category that was
    not is empty. *)
Definition category_is (reached : bool) (error : value) (key : string)
    (field : list Item.t) : Prop :=
  if reached
  then Forall2 (fun x y => mapItem x = Ok y) (items_of error key) field
  else field = [].

(** The values the alphaTab calls of a world throw are values the
    normalizer accepts. *)
Definition throws_are_normalized {S Bytes Score} (w : World S Bytes Score)
  : Prop :=
  (forall data e, loadScoreFromBytes w data = Throw e -> message_obtained e)
  /\ (forall score e, exportToString w score = Throw e -> message_obtained e)
  /\ (forall text e, initFromString w text = Throw e -> message_obtained e)
  /\ (forall text e, readScore w text = Throw e -> message_obtained e).

(** The integers JavaScript holds exactly, and the values all of whose
    numbers are such. *)
Definition safe_integer (z : Z) : bool :=
  Z.leb (Z.abs z) 9007199254740991.

Fixpoint safe_numbers (v : value) : bool :=
  match v with
  | VNum z => safe_integer z
  | VArr items => forallb safe_numbers items
  | VObj fields | VErr _ fields =>
      forallb (fun kv => safe_numbers (snd kv)) fields
  | _ => true
  end.

(** What a run puts on standard output, call by call: the text of a
    [process.stdout.write], and the arguments of a [console.log], which
    prints them on a line of their own.  [console.error] and
    [console.warn] print to standard error. *)
Inductive printed : Type :=
| Text (t : string)
| Line (args : list value).

Fixpoint stdout_of (evs : list event) : list printed :=
  match evs with
  | [] => []
  | EvStdout t :: rest => Text t :: stdout_of rest
  | EvConsoleLog args :: rest => Line args :: stdout_of rest
  | _ :: rest => stdout_of rest
  end.

Definition off_stdout (ev : event) : Prop :=
  match ev with
  | EvStdout _ | EvConsoleLog _ => False
  | _ => True
  end.

(** What follows the progress text of a file, by its result. *)
Definition result_line (r : FileResult.t) : list printed :=
  match FileResult.status r with
  | passed => [Line [VStr "OK"]]
  | failed =>
      [Line [VStr ("FAILED (" ++ template_count (FileResult.errorCount r)
                   ++ " errors)")]]
  | error => []
  end.

(** The output for the files of a batch from index [i] on, given their
    results. *)
Fixpoint files_output (verbose : bool) (total i : nat)
    (results : list FileResult.t) : list printed :=
  match results with
  | [] => []
  | r :: rest =>
      (Text (progress total i (FileResult.input r))
       :: (if verbose
           then [Line [VStr ("Processing: " ++ FileResult.input r)]]
           else [])
       ++ result_line r
       ++ files_output verbose total (i + 1) rest)%list
  end.

(** * Properties *)

(** ** Reasoning about computations *)

Section Triples.
Context {S : Type}.

Lemma triple_ret {A} (a : A) (Q : A -> Prop) E V :
  Q a -> triple (@ret S A a) Q E V.
Proof. intros H s; split; [constructor | exact H]. Qed.

Lemma triple_emit (ev : event) (Q : unit -> Prop) E (V : event -> Prop) :
  V ev -> Q tt -> triple (@emit S ev) Q E V.
Proof. intros Hv Hq s; split; [repeat constructor; exact Hv | exact Hq]. Qed.

Lemma triple_lift {A} (r : result A) (Q : A -> Prop) (E : value -> Prop) V :
  match r with Ok a => Q a | Throw e => E e end ->
  triple (@lift S A r) Q E V.
Proof. intros H s; split; [constructor | exact H]. Qed.

Lemma triple_bind {A B} (m : M S A) (k : A -> M S B) P Q E V :
  triple m P E V ->
  (forall a, P a -> triple (k a) Q E V) ->
  triple (bind m k) Q E V.
Proof.
  intros Hm Hk s. unfold bind.
  destruct (Hm s) as [Hev Hout].
  destruct (m s) as [[r s1] ev1]; cbn in Hev, Hout.
  destruct r as [a | e]; [| split; assumption].
  destruct (Hk a Hout s1) as [Hev2 Hout2].
  destruct (k a s1) as [[r2 s2] ev2]; cbn in *.
  split; [apply Forall_app; split; assumption | exact Hout2].
Qed.

Lemma triple_try_catch {A} (m : M S A) (h : value -> M S A) Q E E' V :
  triple m Q E V ->
  (forall e, E e -> triple (h e) Q E' V) ->
  triple (try_catch m h) Q E' V.
Proof.
  intros Hm Hh s. unfold try_catch.
  destruct (Hm s) as [Hev Hout].
  destruct (m s) as [[r s1] ev1]; cbn in Hev, Hout.
  destruct r as [a | e]; [split; assumption |].
  destruct (Hh e Hout s1) as [Hev2 Hout2].
  destruct (h e s1) as [[r2 s2] ev2]; cbn in *.
  split; [apply Forall_app; split; assumption | exact Hout2].
Qed.

Lemma triple_try_assign {A B} (m : M S A) (k : A -> M S B)
    (h : option A -> value -> M S B) P Q E E' V :
  triple m P (fun _ => True) V ->
  (forall a, P a -> triple (k a) Q E V) ->
  (forall x e, triple (h x e) Q E' V) ->
  triple (try_assign m k h) Q E' V.
Proof.
  intros Hm Hk Hh s. unfold try_assign.
  destruct (Hm s) as [Hev Hout].
  destruct (m s) as [[r s1] ev1]; cbn in Hev, Hout.
  destruct r as [a | e].
  - assert (Ht : triple (try_catch (k a) (h (Some a))) Q E' V).
    { eapply triple_try_catch; [apply Hk; exact Hout | intros; apply Hh]. }
    destruct (Ht s1) as [Hev2 Hout2].
    destruct (try_catch (k a) (h (Some a)) s1) as [[r2 s2] ev2]; cbn in *.
    split; [apply Forall_app; split; assumption | exact Hout2].
  - destruct (Hh None e s1) as [Hev2 Hout2].
    destruct (h None e s1) as [[r2 s2] ev2]; cbn in *.
    split; [apply Forall_app; split; assumption | exact Hout2].
Qed.

(** The same rule when something is known of what the try block throws. *)
Lemma triple_try_assign_on {A B} (m : M S A) (k : A -> M S B)
    (h : option A -> value -> M S B) P Q E E' V :
  triple m P E V ->
  (forall a, P a -> triple (k a) Q E V) ->
  (forall x e, E e -> triple (h x e) Q E' V) ->
  triple (try_assign m k h) Q E' V.
Proof.
  intros Hm Hk Hh s. unfold try_assign.
  destruct (Hm s) as [Hev Hout].
  destruct (m s) as [[r s1] ev1]; cbn in Hev, Hout.
  destruct r as [a | e].
  - assert (Ht : triple (try_catch (k a) (h (Some a))) Q E' V).
    { eapply triple_try_catch; [apply Hk; exact Hout | intros; apply Hh; assumption]. }
    destruct (Ht s1) as [Hev2 Hout2].
    destruct (try_catch (k a) (h (Some a)) s1) as [[r2 s2] ev2]; cbn in *.
    split; [apply Forall_app; split; assumption | exact Hout2].
  - destruct (Hh None e Hout s1) as [Hev2 Hout2].
    destruct (h None e s1) as [[r2 s2] ev2]; cbn in *.
    split; [apply Forall_app; split; assumption | exact Hout2].
Qed.

Lemma triple_weaken {A} (m : M S A) (Q Q' : A -> Prop) (E E' : value -> Prop) V :
  triple m Q E V ->
  (forall a, Q a -> Q' a) -> (forall e, E e -> E' e) ->
  triple m Q' E' V.
Proof.
  intros Hm HQ HE s. destruct (Hm s) as [Hev Hout]. split; [exact Hev |].
  destruct (outcome (m s)); auto.
Qed.

End Triples.

(** ** What the normalizer can throw *)

Lemma js_get_truthy (v : value) (key : string) :
  truthy v = true -> exists x, js_get v key = Ok x.
Proof.
  destruct v; cbn; try discriminate; intros _; eauto.
  - destruct (String.eqb key "length"); eauto.
  - destruct (String.eqb key "length"); eauto.
  - destruct (lookup key fields); eauto.
  - destruct (lookup key fields); eauto.
    destruct (String.eqb key "name"); eauto.
    destruct (String.eqb key "message"); eauto.
Qed.

Lemma js_get_not_nullish (v : value) (key : string) :
  nullish v = false -> js_get v key = Ok (prop v key).
Proof.
  unfold prop. destruct v; cbn; try discriminate; intros _; try reflexivity.
  - destruct (String.eqb key "length"); reflexivity.
  - destruct (String.eqb key "length"); reflexivity.
  - destruct (lookup key fields); reflexivity.
  - destruct (lookup key fields); [reflexivity |].
    destruct (String.eqb key "name"); [reflexivity |].
    destruct (String.eqb key "message"); reflexivity.
Qed.

Lemma truthy_not_nullish (v : value) : truthy v = true -> nullish v = false.
Proof. destruct v; cbn; congruence. Qed.

(** [String(v)] throws nothing but the conversion error. *)
Lemma js_String_throws (v : value) :
  forall e, js_String v = Throw e -> e = cannot_convert.
Proof.
  induction v as [| | b | z | s | items IH | fields IH | name fields IH]
    using value_nested_ind; cbn [js_String]; try discriminate.
  - destruct b; discriminate.
  - intros e.
    match goal with
    | |- rbind (?f items) _ = _ -> _ =>
        assert (Hel : forall e', f items = Throw e' -> e' = cannot_convert)
    end.
    { induction IH as [| x items Hx _ IHitems]; [discriminate |].
      intros e'.
      destruct (match x with
                | VUndef | VNull => Ok ""%string
                | _ => js_String x
                end) as [sx | ex] eqn:Hsx; cbn [rbind].
      - match goal with
        | |- rbind ?r _ = _ -> _ => destruct r as [ss | es]
        end; cbn [rbind]; [discriminate |].
        intros H. apply IHitems. exact H.
      - intros H. injection H as <-.
        destruct x; try discriminate Hsx; exact (Hx _ Hsx). }
    match goal with
    | |- rbind ?r _ = _ -> _ => destruct r as [ss | es]
    end; cbn [rbind]; [discriminate |].
    intros H. injection H as <-. apply Hel. reflexivity.
  - destruct (lookup "toString" fields); [| discriminate].
    intros e H. injection H as <-. reflexivity.
  - intros e. destruct (lookup "toString" fields).
    { intros H. injection H as <-. reflexivity. }
    match goal with
    | |- rbind ?n _ = _ -> _ =>
        assert (Hn : forall e', n = Throw e' -> e' = cannot_convert)
    end.
    { clear e. induction IH as [| [k x] fields Hx _ IHfields]; [discriminate |].
      destruct (String.eqb k "name"); [| exact IHfields].
      intros e' He'. cbn [snd] in Hx.
      destruct x; try discriminate He'; exact (Hx _ He'). }
    match goal with
    | |- rbind ?n _ = _ -> _ => destruct n as [sn | en]
    end; cbn [rbind]; [| intros H; apply Hn; exact H].
    clear Hn.
    match goal with
    | |- rbind ?m _ = _ -> _ =>
        assert (Hm : forall e', m = Throw e' -> e' = cannot_convert)
    end.
    { clear e. induction IH as [| [k x] fields Hx _ IHfields]; [discriminate |].
      destruct (String.eqb k "message"); [| exact IHfields].
      intros e' He'. cbn [snd] in Hx.
      destruct x; try discriminate He'; exact (Hx _ He'). }
    match goal with
    | |- rbind ?m _ = _ -> _ => destruct m as [sm | em]
    end; cbn [rbind]; [| intros H; apply Hm; exact H].
    destruct (String.eqb sn ""); [discriminate |].
    destruct (String.eqb sm ""); discriminate.
Qed.

(** The try block of [extractDiagnostics] lets nothing out: the
    function throws only what [String(error)] throws, and only when it
    has to call it. *)
Lemma extractDiagnostics_outcome (error : value) :
  match extractDiagnostics error with
  | Ok _ => True
  | Throw e =>
      e = cannot_convert
      /\ js_String error = Throw e
      /\ truthy error && truthy (prop error "message") = false
  end.
Proof.
  unfold extractDiagnostics.
  destruct (truthy error) eqn:Ht.
  - rewrite (js_get_not_nullish error "message" (truthy_not_nullish _ Ht)),
      (js_get_not_nullish error "type" (truthy_not_nullish _ Ht)).
    cbn [rbind andb].
    destruct (truthy (prop error "message")) eqn:Hm.
    + cbn [rbind].
      destruct (is_undefined (prop error "type")); cbn [rbind];
        destruct (mapCategory error "lexerDiagnostics"); try exact I;
        destruct (mapCategory error "parserDiagnostics"); try exact I;
        destruct (mapCategory error "semanticDiagnostics"); exact I.
    + destruct (js_String error) as [s | e] eqn:Hs; cbn [rbind].
      * destruct (is_undefined (prop error "type")); cbn [rbind];
          destruct (mapCategory error "lexerDiagnostics"); try exact I;
          destruct (mapCategory error "parserDiagnostics"); try exact I;
          destruct (mapCategory error "semanticDiagnostics"); exact I.
      * split; [exact (js_String_throws _ _ Hs) | split; reflexivity].
  - cbn [andb].
    destruct (js_String error) as [s | e] eqn:Hs; cbn [rbind].
    + destruct (mapCategory error "lexerDiagnostics"); try exact I;
        destruct (mapCategory error "parserDiagnostics"); try exact I;
        destruct (mapCategory error "semanticDiagnostics"); exact I.
    + split; [exact (js_String_throws _ _ Hs) | split; reflexivity].
Qed.

Lemma extractDiagnostics_obtained (error : value) :
  message_obtained error -> exists d, extractDiagnostics error = Ok d.
Proof.
  intros Hobt. pose proof (extractDiagnostics_outcome error) as H.
  destruct (extractDiagnostics error) as [d | e]; [eauto |].
  destruct H as (_ & Hs & Hm).
  destruct Hobt as [Ht | [s Hs']]; congruence.
Qed.

Lemma extractDiagnostics_throws (error e : value) :
  extractDiagnostics error = Throw e -> e = cannot_convert.
Proof.
  intros H. pose proof (extractDiagnostics_outcome error) as Ho.
  rewrite H in Ho. apply Ho.
Qed.

Lemma message_obtained_node_error (msg : string) :
  message_obtained (node_error msg).
Proof.
  right. unfold node_error. cbn.
  destruct (String.eqb msg ""); eauto.
Qed.

Lemma length_or_0_length {A} (l : list A) : length_or_0 l = List.length l.
Proof. unfold length_or_0. destruct (List.length l); reflexivity. Qed.

Lemma js_get_node_error_message (msg : string) :
  js_get (node_error msg) "message" = Ok (VStr msg).
Proof. reflexivity. Qed.

(** ** What one file can produce *)

Section FileProofs.
Context {S Bytes Score : Type}.
Variable w : World S Bytes Score.

Lemma triple_fs_call (ev : event) (f : S -> option string * S)
    (Q : unit -> Prop) (V : event -> Prop) :
  V ev -> Q tt -> triple (fs_call ev f) Q is_node_error V.
Proof.
  intros Hv Hq s. unfold fs_call.
  destruct (f s) as [[msg |] s']; cbn.
  - split; [repeat constructor; exact Hv | exists msg; reflexivity].
  - split; [repeat constructor; exact Hv | exact Hq].
Qed.

Lemma triple_fs_query {A} (ev : event) (f : S -> (A + string) * S)
    (V : event -> Prop) :
  V ev -> triple (fs_query ev f) (fun _ => True) is_node_error V.
Proof.
  intros Hv s. unfold fs_query.
  destruct (f s) as [[a | msg] s']; cbn.
  - split; [repeat constructor; exact Hv | exact I].
  - split; [repeat constructor; exact Hv | exists msg; reflexivity].
Qed.

(** A guarded persistence step: whatever the guarded call rejects
    with is logged, and the step completes. *)
Lemma triple_guarded (m : M S unit) (label : string) :
  triple m (fun _ => True) is_node_error not_report ->
  triple
    (try_catch m
       (fun e => bind (lift (js_get e "message"))
                   (fun msg => console_error [VStr label; msg])))
    (fun _ => True) (fun _ => False) not_report.
Proof.
  intros Hm. eapply triple_try_catch; [exact Hm |].
  intros e [msg ->].
  eapply triple_bind with (P := fun _ => True).
  - apply triple_lift. rewrite js_get_node_error_message. exact I.
  - intros a _. apply triple_emit; exact I.
Qed.

Lemma triple_ensureDir (dir : string) :
  triple (ensureDir w dir) (fun _ => True) is_node_error not_report.
Proof. apply triple_fs_call; exact I. Qed.

Lemma triple_copyFile (src dest : string) :
  triple (copyFile w src dest) (fun _ => True) is_node_error not_report.
Proof.
  unfold copyFile. eapply triple_bind; [apply triple_ensureDir |].
  intros _ _. apply triple_fs_call; exact I.
Qed.

Lemma node_error_is_rejection (e : value) : is_node_error e -> is_rejection e.
Proof. intros H. left. exact H. Qed.

Lemma rejection_message (e : value) :
  is_rejection e -> exists msg, js_get e "message" = Ok (VStr msg).
Proof. intros [[msg ->] | ->]; eexists; reflexivity. Qed.

(** The first statement of the catch block: the normalizer returns or
    throws the conversion error. *)
Lemma triple_normalize (e : value) (V : event -> Prop) :
  triple (@lift S _ (extractDiagnostics e))
    (fun d => extractDiagnostics e = Ok d) (fun e' => e' = cannot_convert) V.
Proof.
  apply triple_lift.
  destruct (extractDiagnostics e) as [d | e'] eqn:Hd; [reflexivity |].
  exact (extractDiagnostics_throws e e' Hd).
Qed.

Lemma triple_processFile_catch outDir inputPath fileName atexName options atex e :
  triple (processFile_catch w outDir inputPath fileName atexName options atex e)
    (failed_shape fileName atexName) is_rejection not_report.
Proof.
  unfold processFile_catch.
  eapply triple_bind.
  { eapply triple_weaken; [apply triple_normalize | | ]; cbv beta.
    - intros d Hd. exact Hd.
    - intros e' ->. right. reflexivity. }
  intros d _.
  eapply triple_bind with (P := fun _ => True).
  - eapply triple_weaken with (Q := fun _ => True) (E := is_node_error);
      [| auto | exact node_error_is_rejection].
    destruct (Options.dryRun options); cbn [negb].
    + apply triple_ret. exact I.
    + eapply triple_bind; [apply triple_ensureDir |]. intros _ _.
      eapply triple_bind with (P := fun _ => True).
      { eapply triple_weaken;
          [apply triple_guarded, triple_copyFile | auto | intros ? []]. }
      intros _ _.
      eapply triple_bind; [apply triple_ensureDir |]. intros _ _.
      eapply triple_weaken;
        [apply triple_guarded; apply triple_fs_call; exact I
        | auto | intros ? []].
  - intros _ _. apply triple_ret. exists d.
    unfold diagnosticsTotal. rewrite !length_or_0_length. reflexivity.
Qed.

Lemma triple_processFile inDir outDir fileName options :
  let atexName :=
    (path_basename w fileName (path_extname w fileName) ++ ".atex")%string in
  triple (processFile w inDir outDir fileName options)
    (fun r => r = passedResult fileName atexName
              \/ failed_shape fileName atexName r)
    is_rejection not_report.
Proof.
  intros atexName. unfold processFile. fold atexName.
  eapply triple_bind with (P := fun _ => True).
  { destruct (Options.verbose options);
      [apply triple_emit | apply triple_ret]; exact I. }
  intros _ _.
  eapply triple_try_assign with (P := fun _ => True) (E := fun _ => True).
  - unfold processFile_export.
    eapply triple_bind with (P := fun _ => True).
    { eapply triple_weaken; [apply triple_fs_query; exact I | auto | auto]. }
    intros data _.
    eapply triple_bind with (P := fun _ => True).
    { apply triple_lift. destruct (loadScoreFromBytes w data); exact I. }
    intros score _. apply triple_lift.
    destruct (exportToString w score); exact I.
  - intros text _. unfold processFile_reimport.
    eapply triple_bind with (P := fun _ => True).
    { apply triple_lift. destruct (initFromString w text); exact I. }
    intros _ _.
    eapply triple_bind with (P := fun _ => True).
    { apply triple_lift. destruct (readScore w text); exact I. }
    intros _ _. apply triple_ret. left. reflexivity.
  - intros x e.
    eapply triple_weaken; [apply triple_processFile_catch | | auto].
    intros r Hr. right. exact Hr.
Qed.

End FileProofs.

(** ** The loop of [main] *)

Section LoopProofs.
Context {S Bytes Score : Type}.
Variable w : World S Bytes Score.

(** One iteration pushes exactly one result and its log line, and
    nothing escapes it. *)
Lemma triple_main_step inDir outDir opts total i fileName results logLines :
  triple (main_step w inDir outDir opts total i fileName results logLines)
    (step_post fileName results logLines) (fun _ => False) not_report.
Proof.
  unfold main_step.
  eapply triple_bind with (P := fun _ => True);
    [apply triple_emit; exact I |].
  intros _ _.
  eapply triple_try_catch with (E := is_rejection).
  - eapply triple_bind; [apply triple_processFile |].
    intros res [-> | [d ->]]; cbn.
    + eapply triple_bind with (P := fun _ => True);
        [apply triple_emit; exact I |].
      intros _ _. apply triple_ret.
      eexists; repeat split; cbn; reflexivity || exact I.
    + eapply triple_bind with (P := fun _ => True);
        [apply triple_emit; exact I |].
      intros _ _. apply triple_ret.
      eexists; repeat split; try reflexivity.
      exists d; split; reflexivity.
  - intros e He. destruct (rejection_message e He) as [msg Hmsg].
    eapply triple_bind with (P := fun m => m = VStr msg).
    { apply triple_lift. rewrite Hmsg. reflexivity. }
    intros ? ->.
    eapply triple_bind with (P := fun _ => True);
      [apply triple_emit; exact I |].
    intros _ _.
    eapply triple_bind with (P := fun text => text = msg).
    { apply triple_lift. reflexivity. }
    intros ? ->. apply triple_ret.
    eexists; repeat split; cbn; reflexivity || exact I.
Qed.

Lemma triple_main_loop inDir outDir opts total rest :
  forall i results logLines,
    triple (main_loop w inDir outDir opts total i rest results logLines)
      (loop_post rest results logLines) (fun _ => False) not_report.
Proof.
  induction rest as [| fileName rest IH]; intros i results logLines; cbn.
  - apply triple_ret. exists []. cbn. rewrite !app_nil_r. auto.
  - eapply triple_bind; [apply triple_main_step |].
    intros [results1 logLines1] (r & Hr & Hl & Hin & Hok); cbn in Hr, Hl |- *.
    subst results1 logLines1.
    eapply triple_weaken; [apply IH | | auto].
    intros [results2 logLines2] (new & Hr2 & Hl2 & Hin2 & Hok2); cbn in *.
    exists (r :: new). cbn. rewrite <- !app_assoc in *. cbn in *.
    repeat split; try assumption.
    + congruence.
    + constructor; assumption.
Qed.

(** The batch is never aborted by a file: the loop returns its two
    arrays from every state. *)
Corollary main_loop_total inDir outDir opts total i rest results logLines s :
  exists st,
    outcome (main_loop w inDir outDir opts total i rest results logLines s) = Ok st.
Proof.
  destruct (triple_main_loop inDir outDir opts total rest i results logLines s)
    as [_ H].
  destruct (outcome (main_loop w inDir outDir opts total i rest results logLines s))
    as [st | e]; [exists st; reflexivity | destruct H].
Qed.

(** Where directories can always be created, a rejected copy or a
    rejected write of the exported text is logged and, on a caught
    value the normalizer accepts, the result of the catch block is
    still the [failed] one. *)
Lemma triple_processFile_catch_guarded
    outDir inputPath fileName atexName options atex e d :
  (forall dir s, fst (fs_mkdir w dir s) = None) ->
  extractDiagnostics e = Ok d ->
  triple (processFile_catch w outDir inputPath fileName atexName options atex e)
    (failed_shape fileName atexName) (fun _ => False) not_report.
Proof.
  intros Hmkdir Hd.
  assert (Hdir : forall dir,
             triple (ensureDir w dir) (fun _ => True) (fun _ => False) not_report).
  { intros dir s. unfold ensureDir, fs_call. specialize (Hmkdir dir s).
    destruct (fs_mkdir w dir s) as [[msg |] s']; [discriminate Hmkdir |].
    split; [repeat constructor | exact I]. }
  assert (Hguard : forall (m : M S unit) label,
             triple m (fun _ => True) is_node_error not_report ->
             triple
               (try_catch m
                  (fun e => bind (lift (js_get e "message"))
                              (fun msg => console_error [VStr label; msg])))
               (fun _ => True) (fun _ => False) not_report).
  { intros m label Hm. apply triple_guarded, Hm. }
  unfold processFile_catch. rewrite Hd.
  eapply triple_bind with (P := fun x => x = d).
  { apply triple_lift. reflexivity. }
  intros ? ->.
  eapply triple_bind with (P := fun _ => True).
  - destruct (Options.dryRun options); cbn [negb].
    + apply triple_ret. exact I.
    + eapply triple_bind; [apply Hdir |]. intros _ _.
      eapply triple_bind; [apply Hguard, triple_copyFile |]. intros _ _.
      eapply triple_bind; [apply Hdir |]. intros _ _.
      apply Hguard, triple_fs_call; exact I.
  - intros _ _. apply triple_ret. exists d.
    unfold diagnosticsTotal. rewrite !length_or_0_length. reflexivity.
Qed.

(** In a dry run the loop reads the inputs and prints its progress, and
    does nothing else: no directory is created, nothing is copied and
    nothing is written. *)
Lemma triple_processFile_dry inDir outDir fileName options :
  Options.dryRun options = true ->
  triple (processFile w inDir outDir fileName options)
    (fun _ => True) (fun _ => True) quiet.
Proof.
  intros Hdry. unfold processFile.
  eapply triple_bind with (P := fun _ => True).
  { destruct (Options.verbose options);
      [apply triple_emit | apply triple_ret]; exact I. }
  intros _ _.
  eapply triple_try_assign with (P := fun _ => True) (E := fun _ => True).
  - unfold processFile_export.
    eapply triple_bind with (P := fun _ => True).
    { intros s. unfold readFile, fs_query.
      destruct (fs_readFile w (path_join w inDir fileName) s) as [[a | msg] s'];
        split; repeat constructor. }
    intros data _.
    eapply triple_bind with (P := fun _ => True).
    { apply triple_lift. destruct (loadScoreFromBytes w data); exact I. }
    intros score _. apply triple_lift.
    destruct (exportToString w score); exact I.
  - intros text _. unfold processFile_reimport.
    eapply triple_bind with (P := fun _ => True).
    { apply triple_lift. destruct (initFromString w text); exact I. }
    intros _ _.
    eapply triple_bind with (P := fun _ => True).
    { apply triple_lift. destruct (readScore w text); exact I. }
    intros _ _. apply triple_ret. exact I.
  - intros x e. unfold processFile_catch. rewrite Hdry. cbn [negb].
    eapply triple_bind with (P := fun _ => True).
    { apply triple_lift. destruct (extractDiagnostics e); exact I. }
    intros d _.
    eapply triple_bind with (P := fun _ => True);
      [apply triple_ret; exact I |].
    intros _ _. apply triple_ret. exact I.
Qed.

Lemma dry_run_loop_is_quiet inDir outDir opts total rest :
  Options.dryRun opts = true ->
  forall i results logLines s,
    Forall quiet
      (events (main_loop w inDir outDir opts total i rest results logLines s)).
Proof.
  intros Hdry.
  assert (H : forall i results logLines,
             triple (main_loop w inDir outDir opts total i rest results logLines)
               (fun _ => True) (fun _ => True) quiet).
  { induction rest as [| fileName rest' IH]; intros i results logLines; cbn.
    - apply triple_ret. exact I.
    - eapply triple_bind with (P := fun _ => True); [| intros; apply IH].
      unfold main_step.
      eapply triple_bind with (P := fun _ => True);
        [apply triple_emit; exact I |].
      intros _ _.
      eapply triple_try_catch with (E := fun _ => True).
      + eapply triple_bind with (P := fun _ => True);
          [apply triple_processFile_dry, Hdry |].
        intros res _.
        destruct (Status_eqb (FileResult.status res) passed);
          (eapply triple_bind with (P := fun _ => True);
           [apply triple_emit; exact I | intros; apply triple_ret; exact I]).
      + intros e _.
        eapply triple_bind with (P := fun _ => True).
        { apply triple_lift. destruct (js_get e "message"); exact I. }
        intros m _.
        eapply triple_bind with (P := fun _ => True);
          [apply triple_emit; exact I |].
        intros _ _.
        eapply triple_bind with (P := fun _ => True).
        { apply triple_lift. destruct (js_String m); exact I. }
        intros; apply triple_ret; exact I. }
  intros i results logLines s. apply H.
Qed.

End LoopProofs.

(** ** A whole run *)

Lemma reports_of_app (a b : list event) :
  reports_of (a ++ b) = (reports_of a ++ reports_of b)%list.
Proof.
  induction a as [| ev a IH]; [reflexivity |].
  destruct ev; cbn; try exact IH.
  destruct c; cbn; [exact IH | f_equal; exact IH].
Qed.

Lemma reports_of_not_report (evs : list event) :
  Forall not_report evs -> reports_of evs = [].
Proof.
  induction 1 as [| ev evs Hev _ IH]; [reflexivity |].
  destruct ev; cbn; try exact IH.
  destruct c; [exact IH | destruct Hev].
Qed.

Section RunProofs.
Context {S Bytes Score : Type}.
Variable w : World S Bytes Score.

(** The events of [main]: without the output directory or the listing
    no report is written; otherwise the loop runs to its end, the
    report is handed to [fs.writeFile], and the log follows unless that
    write is rejected. *)
Lemma main_run (opts : Options.t) (s : S) :
  let inDir := path_resolve w (Options.in_ opts) in
  let outDir := path_resolve w (Options.out opts) in
  let reportPath := path_join w outDir "report.json" in
  let logPath := path_join w outDir "log.txt" in
  let run := main w opts s in
  match fs_mkdir w outDir s with
  | (Some _, _) => reports_of (events run) = []
  | (None, s1) =>
      match fs_readdir w inDir s1 with
      | (inr _, _) => reports_of (events run) = []
      | (inl files, s2) =>
          exists results now pre post,
            let b := summary_of w opts now files results in
            map FileResult.input results = filter is_gp5 files
            /\ Forall shape_ok results
            /\ events run = (pre ++ EvWriteFile reportPath (CReport b) :: post)%list
            /\ Forall not_report pre
            /\ ((post = [] /\ exists e, outcome run = Throw e)
                \/ exists tail,
                     post = EvWriteFile logPath
                              (CText (VStr (join newline (map logLine results))))
                            :: tail
                     /\ Forall (fun ev => is_artifact_write ev = false) tail
                     /\ Forall not_report tail)
      end
  end.
Proof.
  intros inDir outDir reportPath logPath run.
  subst run. unfold main.
  fold inDir outDir. fold reportPath logPath.
  cbv beta iota zeta delta [bind console_log emit ensureDir fs_call readdir fs_query writeFile ret].
  destruct (fs_mkdir w outDir s) as [[msg |] s1]; [reflexivity |].
  destruct (fs_readdir w inDir s1) as [[files | msg] s2]; [| reflexivity].
  pose proof (triple_main_loop w inDir outDir opts
                (List.length (filter is_gp5 files)) (filter is_gp5 files)
                0 [] [] s2) as [Hev Hout].
  destruct (main_loop w inDir outDir opts (List.length (filter is_gp5 files)) 0
              (filter is_gp5 files) [] [] s2) as [[r s3] evl].
  cbn in Hev, Hout.
  destruct r as [[results logLines] | e]; [| destruct Hout].
  destruct Hout as (new & Hr & Hl & Hin & Hok). cbn in Hr, Hl. subst results logLines.
  cbn [fst snd].
  exists new, (toISOString w s3).
  exists ([EvConsoleLog [VStr ("Input dir: " ++ inDir)];
           EvConsoleLog [VStr ("Output dir: " ++ outDir)];
           EvConsoleLog [VStr ("Dry-run: " ++ string_of_bool (Options.dryRun opts))];
           EvMkdir outDir; EvReaddir inDir] ++ evl)%list.
  assert (Hpre : Forall not_report
                   ([EvConsoleLog [VStr ("Input dir: " ++ inDir)];
                     EvConsoleLog [VStr ("Output dir: " ++ outDir)];
                     EvConsoleLog [VStr ("Dry-run: " ++ string_of_bool (Options.dryRun opts))];
                     EvMkdir outDir; EvReaddir inDir] ++ evl)%list).
  { apply Forall_app; split; [repeat constructor | exact Hev]. }
  unfold summary_of. fold inDir outDir.
  destruct (fs_writeFile w reportPath _ s3) as [[msg |] s4].
  { exists []. cbn.
    repeat split; try assumption. left. split; [reflexivity | eauto]. }
  destruct (fs_writeFile w logPath _ s4) as [[msg |] s5].
  { eexists. cbn.
    repeat split; try assumption; try reflexivity.
    right. eexists. split; [reflexivity |]. split; constructor. }
  destruct (Options.verbose opts).
  - eexists. cbn.
    repeat split; try assumption; try reflexivity.
    right. eexists. split; [reflexivity |]. split; repeat constructor.
  - eexists. cbn.
    repeat split; try assumption; try reflexivity.
    right. eexists. split; [reflexivity |]. split; repeat constructor.
Qed.

End RunProofs.

(** ** Position resolution *)

(** X18.  On every item that is not null or undefined [mapItem]
    returns, and [start] takes, field by field, the first alternative
    that is not null, the fields of the nested position object before
    the item's own flat fields ([line] from [start.line], [item.line];
    [column] from [start.col], [start.column], [item.column]; [offset]
    from [start.offset], [item.offset]), and null when there is none.
    The [end] of the result is built from the nested [end] object
    alone, when the item has one. *)
Theorem position_fields_resolution (item : value) :
  nullish item = false ->
  let start := js_or (prop item "start") (VObj []) in
  let e := prop item "end" in
  mapItem item =
  Ok (Item.mk
        (js_or (prop item "code") VNull)
        (js_or (prop item "message") VNull)
        (if is_undefined (prop item "severity") then VNull
         else prop item "severity")
        (Position.mk
           (first_non_null [prop start "line"; prop item "line"])
           (first_non_null [prop start "col"; prop start "column";
                            prop item "column"])
           (first_non_null [prop start "offset"; prop item "offset"]))
        (if truthy e
         then Some (Position.mk (prop e "line") (prop e "col") (prop e "offset"))
         else None)).
Proof.
  intros Hitem start e. unfold mapItem.
  assert (Hstart : nullish start = false).
  { subst start. unfold js_or.
    destruct (truthy (prop item "start")) eqn:Ht; [| reflexivity].
    apply truthy_not_nullish, Ht. }
  rewrite !(js_get_not_nullish item) by exact Hitem. cbn [rbind].
  fold start.
  rewrite !(js_get_not_nullish start) by exact Hstart. cbn [rbind].
  fold e. destruct (truthy e) eqn:He.
  - rewrite !(js_get_not_nullish e) by (apply truthy_not_nullish, He).
    cbn [rbind first_non_null]. unfold js_coalesce.
    repeat match goal with |- context [nullish ?x] => destruct (nullish x) end;
      reflexivity.
  - cbn [rbind first_non_null]. unfold js_coalesce.
    repeat match goal with |- context [nullish ?x] => destruct (nullish x) end;
      reflexivity.
Qed.

(** C5.  An item carrying the nested position [{start:{line:3,col:5}}]
    normalizes to [start = {line:3, column:5, offset:null}], and an item
    with the flat fields [{line:3,column:5}] and no [start] object
    normalizes to the same [start]. *)
Theorem position_resolution_nested_and_flat :
  let nested := VObj [("start", VObj [("line", VNum 3); ("col", VNum 5)])] in
  let flat := VObj [("line", VNum 3); ("column", VNum 5)] in
  let canonical := Position.mk (VNum 3) (VNum 5) VNull in
  (exists it, mapItem nested = Ok it /\ Item.start it = canonical)
  /\ (exists it, mapItem flat = Ok it /\ Item.start it = canonical).
Proof.
  cbn zeta. split; eexists; split; reflexivity.
Qed.

Lemma position_fields_resolution_witness :
  let item :=
    VObj [("code", VNum 218);
          ("start", VObj [("line", VNum 3); ("column", VNum 6)]);
          ("line", VNum 9); ("column", VNum 8); ("offset", VNum 40);
          ("end", VObj [("line", VNum 3); ("col", VNum 9)])] in
  nullish item = false
  /\ mapItem item
     = Ok (Item.mk (VNum 218) VNull VNull
             (Position.mk (VNum 3) (VNum 6) (VNum 40))
             (Some (Position.mk (VNum 3) (VNum 9) VUndef))).
Proof.
  cbv zeta. split; [reflexivity |].
  exact (position_fields_resolution
           (VObj [("code", VNum 218);
                  ("start", VObj [("line", VNum 3); ("column", VNum 6)]);
                  ("line", VNum 9); ("column", VNum 8); ("offset", VNum 40);
                  ("end", VObj [("line", VNum 3); ("col", VNum 9)])])
           eq_refl).
Defined.

(** C6 (where the code departs from it).  The nested position
    [{line:4, column:7}] keeps its column when it is the item's
    [start]; as the item's [end] it loses it, since line 74 reads only
    [end.col] where line 71 reads [start.col], then [start.column]: the
    normalized [end] has an undefined [column], not the first non-null
    of [col] and [column]. *)
Lemma end_position_column_dropped :
  let pos := VObj [("line", VNum 4); ("column", VNum 7)] in
  (exists it, mapItem (VObj [("start", pos)]) = Ok it
              /\ Item.start it = Position.mk (VNum 4) (VNum 7) VNull)
  /\ (exists it, mapItem (VObj [("end", pos)]) = Ok it
                 /\ Item.end_ it = Some (Position.mk (VNum 4) VUndef VUndef)
                 /\ option_map Position.column (Item.end_ it)
                    <> Some (first_non_null [prop pos "col"; prop pos "column"])).
Proof.
  cbn zeta. split; eexists; (split; [reflexivity |]).
  - reflexivity.
  - split; [reflexivity | discriminate].
Qed.


(** A malformed collection: the parser items hold a null, so mapping
    stops there; the lexer item already assigned is kept and the
    semantic items are never reached. *)
Example extractDiagnostics_partial :
  let item := VObj [("code", VNum 209); ("message", VStr "m1")] in
  let error :=
    VObj [("lexerDiagnostics", VObj [("items", VArr [item])]);
          ("parserDiagnostics", VObj [("items", VArr [VNull])]);
          ("semanticDiagnostics", VObj [("items", VArr [item])])] in
  exists d,
    extractDiagnostics error = Ok d
    /\ List.length (Diagnostics.lexerErrors d) = 1
    /\ Diagnostics.parserErrors d = []
    /\ Diagnostics.semanticErrors d = [].
Proof. cbn zeta. eexists. split; [reflexivity |]. cbn. auto. Qed.

(** ** The ".gp5" filter *)

Lemma endsWith_spec (s suffix : string) :
  endsWith s suffix = true <-> exists pre, s = (pre ++ suffix)%string.
Proof.
  induction s as [| c s IH].
  - cbn. rewrite orb_false_r. split.
    + intros H. destruct suffix; [| discriminate H]. exists "". reflexivity.
    + intros [pre H]. destruct pre; [| discriminate]. cbn in H. subst suffix.
      reflexivity.
  - change (endsWith (String c s) suffix)
      with (String.eqb (String c s) suffix || endsWith s suffix).
    rewrite orb_true_iff, IH, String.eqb_eq. split.
    + intros [H | [pre H]].
      * exists "". exact H.
      * exists (String c pre). cbn. rewrite H. reflexivity.
    + intros [pre H]. destruct pre as [| c' pre]; cbn in H.
      * left. exact H.
      * right. injection H as _ H. exists pre. exact H.
Qed.

Lemma toLowerCase_app (a b : string) :
  toLowerCase (a ++ b) = (toLowerCase a ++ toLowerCase b)%string.
Proof. induction a as [| c a IH]; cbn; [| rewrite IH]; reflexivity. Qed.

Lemma toLowerCase_split (f a b : string) :
  toLowerCase f = (a ++ b)%string ->
  exists x y, f = (x ++ y)%string /\ toLowerCase x = a /\ toLowerCase y = b.
Proof.
  revert f. induction a as [| c a IH]; intros f H.
  - exists "", f. auto.
  - destruct f as [| c' f]; [discriminate |]. cbn in H.
    injection H as Hc H. destruct (IH f H) as (x & y & -> & Hx & Hy).
    exists (String c' x), y. cbn. rewrite Hx, Hc. auto.
Qed.

Lemma lower_ascii_dot (c : ascii) : lower_ascii c = "."%char -> c = "."%char.
Proof.
  destruct c as [[] [] [] [] [] [] [] []]; vm_compute; intros H;
    try discriminate H; reflexivity.
Qed.

Lemma lower_ascii_5 (c : ascii) : lower_ascii c = "5"%char -> c = "5"%char.
Proof.
  destruct c as [[] [] [] [] [] [] [] []]; vm_compute; intros H;
    try discriminate H; reflexivity.
Qed.

Lemma lower_ascii_g (c : ascii) :
  lower_ascii c = "g"%char -> c = "g"%char \/ c = "G"%char.
Proof.
  destruct c as [[] [] [] [] [] [] [] []]; vm_compute; intros H;
    try discriminate H; auto.
Qed.

Lemma lower_ascii_p (c : ascii) :
  lower_ascii c = "p"%char -> c = "p"%char \/ c = "P"%char.
Proof.
  destruct c as [[] [] [] [] [] [] [] []]; vm_compute; intros H;
    try discriminate H; auto.
Qed.

Lemma is_gp5_spec (f : string) :
  is_gp5 f = true <-> ends_with_gp5_ignoring_case f.
Proof.
  unfold is_gp5, ends_with_gp5_ignoring_case. rewrite endsWith_spec. split.
  - intros [pre H]. apply toLowerCase_split in H.
    destruct H as (x & y & -> & _ & Hy).
    destruct y as [| c1 [| c2 [| c3 [| c4 [| c5 y]]]]]; try discriminate Hy.
    cbn in Hy. injection Hy as H1 H2 H3 H4.
    apply lower_ascii_dot in H1. apply lower_ascii_g in H2.
    apply lower_ascii_p in H3. apply lower_ascii_5 in H4. subst c1 c4.
    exists x, c2, c3. auto.
  - intros (pre & g & p & -> & Hg & Hp).
    exists (toLowerCase pre). rewrite toLowerCase_app.
    destruct Hg as [-> | ->], Hp as [-> | ->]; reflexivity.
Qed.

(** ** The batch result *)

Lemma count_status_partition (results : list FileResult.t) :
  count_status passed results + count_status failed results
  + count_status error results = List.length results.
Proof.
  unfold count_status. induction results as [| r results IH]; [reflexivity |].
  cbn. destruct (FileResult.status r); cbn; lia.
Qed.

Section BatchProofs.
Context {S Bytes Score : Type}.
Variable w : World S Bytes Score.

(** The one report of a run whose setup succeeded, with everything the
    loop guarantees of it. *)
Lemma main_report (opts : Options.t) (s : S) :
  let run := main w opts s in
  match fs_mkdir w (path_resolve w (Options.out opts)) s with
  | (Some _, _) => reports_of (events run) = []
  | (None, s1) =>
      match fs_readdir w (path_resolve w (Options.in_ opts)) s1 with
      | (inr _, _) => reports_of (events run) = []
      | (inl files, _) =>
          exists now results,
            reports_of (events run) = [summary_of w opts now files results]
            /\ map FileResult.input results = filter is_gp5 files
            /\ Forall shape_ok results
      end
  end.
Proof.
  intros run. pose proof (main_run w opts s) as H. cbv zeta in H. fold run in H.
  destruct (fs_mkdir w (path_resolve w (Options.out opts)) s) as [[msg |] s1];
    [exact H |].
  destruct (fs_readdir w (path_resolve w (Options.in_ opts)) s1)
    as [[files | msg] s2]; [| exact H].
  destruct H as (results & now & pre & post & Hin & Hok & Hev & Hpre & Hpost).
  exists now, results. split; [| split; assumption].
  rewrite Hev, reports_of_app, (reports_of_not_report pre Hpre). cbn.
  f_equal. destruct Hpost as [[-> _] | (tail & -> & _ & Htail)]; [reflexivity |].
  cbn. apply reports_of_not_report, Htail.
Qed.

(** C3.  The report of every run satisfies
    [passed + failed <= totalFiles] and has exactly [totalFiles] results;
    the results with status [error] are the ones counted in neither.  (A
    run writes no report only when the output directory cannot be
    created or the input directory cannot be listed.) *)
Theorem batch_counts_within_total (opts : Options.t) (s : S) :
  let run := main w opts s in
  match fs_mkdir w (path_resolve w (Options.out opts)) s with
  | (Some _, _) => reports_of (events run) = []
  | (None, s1) =>
      match fs_readdir w (path_resolve w (Options.in_ opts)) s1 with
      | (inr _, _) => reports_of (events run) = []
      | (inl files, _) =>
          exists b,
            reports_of (events run) = [b]
            /\ Summary.passed b + Summary.failed b <= Summary.totalFiles b
            /\ List.length (Summary.results b) = Summary.totalFiles b
            /\ Summary.passed b + Summary.failed b
               + count_status error (Summary.results b) = Summary.totalFiles b
      end
  end.
Proof.
  intros run. pose proof (main_report opts s) as H. cbv zeta in H. fold run in H.
  destruct (fs_mkdir w (path_resolve w (Options.out opts)) s) as [[msg |] s1];
    [exact H |].
  destruct (fs_readdir w (path_resolve w (Options.in_ opts)) s1)
    as [[files | msg] s2]; [| exact H].
  destruct H as (now & results & Hrep & Hin & _).
  exists (summary_of w opts now files results). split; [exact Hrep |].
  assert (Hlen : List.length results = List.length (filter is_gp5 files)).
  { rewrite <- Hin, length_map. reflexivity. }
  pose proof (count_status_partition results) as Hpart.
  unfold summary_of.
  cbn [Summary.passed Summary.failed Summary.totalFiles Summary.results].
  rewrite <- Hlen. repeat split; lia.
Qed.

(** C4.  In every report, a result with status [failed] carries its
    diagnostics and an [errorCount] equal to the sum of the lengths of
    its lexer, parser and semantic sequences. *)
Theorem failed_errorCount_is_diagnostics_total
    (opts : Options.t) (s : S) (b : Summary.t) (r : FileResult.t) :
  In b (reports_of (events (main w opts s))) ->
  In r (Summary.results b) ->
  FileResult.status r = failed ->
  exists d,
    FileResult.diagnostics r = Some d
    /\ FileResult.errorCount r
       = Some (List.length (Diagnostics.lexerErrors d)
               + List.length (Diagnostics.parserErrors d)
               + List.length (Diagnostics.semanticErrors d)).
Proof.
  intros Hb Hr Hst. pose proof (main_report opts s) as H. cbv zeta in H.
  destruct (fs_mkdir w (path_resolve w (Options.out opts)) s) as [[msg |] s1];
    [rewrite H in Hb; destruct Hb |].
  destruct (fs_readdir w (path_resolve w (Options.in_ opts)) s1)
    as [[files | msg] s2]; [| rewrite H in Hb; destruct Hb].
  destruct H as (now & results & Hrep & _ & Hok).
  rewrite Hrep in Hb. destruct Hb as [<- | []]. cbn in Hr.
  rewrite Forall_forall in Hok. specialize (Hok r Hr).
  unfold shape_ok in Hok. rewrite Hst in Hok. exact Hok.
Qed.

(** C9.  The text handed to the log write is the join, by newlines, of
    one line per result of the report, in the order of the results, each
    line being the one the log schema gives that result ([logLine]); the
    log write follows the report write, and is missing only when the
    report write is rejected. *)
Theorem log_lines_follow_results (opts : Options.t) (s : S) :
  let outDir := path_resolve w (Options.out opts) in
  let run := main w opts s in
  match fs_mkdir w outDir s with
  | (Some _, _) => reports_of (events run) = []
  | (None, s1) =>
      match fs_readdir w (path_resolve w (Options.in_ opts)) s1 with
      | (inr _, _) => reports_of (events run) = []
      | (inl files, _) =>
          exists b pre post,
            let lines := map logLine (Summary.results b) in
            events run
            = (pre ++ EvWriteFile (path_join w outDir "report.json") (CReport b)
                   :: post)%list
            /\ reports_of pre = []
            /\ List.length lines = Summary.totalFiles b
            /\ ((post = [] /\ exists e, outcome run = Throw e)
                \/ exists tail,
                     post = EvWriteFile (path_join w outDir "log.txt")
                              (CText (VStr (join newline lines))) :: tail
                     /\ Forall (fun ev => is_artifact_write ev = false) tail)
      end
  end.
Proof.
  intros outDir run. pose proof (main_run w opts s) as H. cbv zeta in H.
  fold outDir run in H.
  destruct (fs_mkdir w outDir s) as [[msg |] s1]; [exact H |].
  destruct (fs_readdir w (path_resolve w (Options.in_ opts)) s1)
    as [[files | msg] s2]; [| exact H].
  destruct H as (results & now & pre & post & Hin & Hok & Hev & Hpre & Hpost).
  exists (summary_of w opts now files results), pre, post. cbn.
  split; [exact Hev |]. split; [apply reports_of_not_report, Hpre |].
  split; [rewrite length_map, <- Hin, length_map; reflexivity |].
  destruct Hpost as [Hp | (tail & Hp & Htail & _)]; [left; exact Hp |].
  right. exists tail. split; assumption.
Qed.

(** C10.  The names that pass the filter of [main] are exactly the
    names ending with ".gp5" when case is ignored; the results of the
    report are the entries of the listing that pass it, in listing
    order, and [totalFiles] is their number. *)
Theorem only_gp5_entries_are_validated (opts : Options.t) (s : S) :
  (forall f, is_gp5 f = true <-> ends_with_gp5_ignoring_case f)
  /\ let run := main w opts s in
     match fs_mkdir w (path_resolve w (Options.out opts)) s with
     | (Some _, _) => reports_of (events run) = []
     | (None, s1) =>
         match fs_readdir w (path_resolve w (Options.in_ opts)) s1 with
         | (inr _, _) => reports_of (events run) = []
         | (inl files, _) =>
             exists b,
               reports_of (events run) = [b]
               /\ map FileResult.input (Summary.results b) = filter is_gp5 files
               /\ Summary.totalFiles b = List.length (filter is_gp5 files)
         end
     end.
Proof.
  split; [exact is_gp5_spec |].
  intros run. pose proof (main_report opts s) as H. cbv zeta in H. fold run in H.
  destruct (fs_mkdir w (path_resolve w (Options.out opts)) s) as [[msg |] s1];
    [exact H |].
  destruct (fs_readdir w (path_resolve w (Options.in_ opts)) s1)
    as [[files | msg] s2]; [| exact H].
  destruct H as (now & results & Hrep & Hin & _).
  exists (summary_of w opts now files results). auto.
Qed.

(** In dry-run mode any exception of the read, load and export calls
    that the normalizer accepts is handled like a re-import failure:
    [processFile] returns a result with status [failed] built from the
    normalized exception. *)
Lemma export_failure_is_failed (inDir outDir fileName : string)
    (options : Options.t) (s : S) (e : value) (d : Diagnostics.t) :
  Options.dryRun options = true ->
  outcome (processFile_export w (path_join w inDir fileName) s) = Throw e ->
  extractDiagnostics e = Ok d ->
  outcome (processFile w inDir outDir fileName options s)
  = Ok (failedResult fileName
          (path_basename w fileName (path_extname w fileName) ++ ".atex")
          (diagnosticsTotal d) d).
Proof.
  intros Hdry Hthrow Hd.
  unfold processFile, bind, try_assign.
  assert (Hpre : forall A (k : M S A),
             outcome
               (match (if Options.verbose options
                       then console_log [VStr ("Processing: " ++ fileName)]
                       else ret tt) s with
                | (Ok _, s1, ev1) =>
                    match k s1 with (r, s2, ev2) => (r, s2, (ev1 ++ ev2)%list) end
                | (Throw e0, s1, ev1) => (Throw e0, s1, ev1)
                end) = outcome (k s)).
  { intros A k. destruct (Options.verbose options); cbn;
      destruct (k s) as [[r s2] ev2]; reflexivity. }
  rewrite Hpre.
  destruct (processFile_export w (path_join w inDir fileName) s) as [[r s1] ev1].
  cbn in Hthrow. subst r.
  unfold processFile_catch, bind, lift. rewrite Hd, Hdry. cbn.
  unfold diagnosticsTotal. rewrite !length_or_0_length. reflexivity.
Qed.

End BatchProofs.

(** ** Runs over the corpus *)

Lemma failed_errorCount_witness :
  In demoReport (demoReports false false)
  /\ In demoBroken (Summary.results demoReport)
  /\ FileResult.status demoBroken = failed
  /\ exists d,
       FileResult.diagnostics demoBroken = Some d
       /\ FileResult.errorCount demoBroken
          = Some (List.length (Diagnostics.lexerErrors d)
                  + List.length (Diagnostics.parserErrors d)
                  + List.length (Diagnostics.semanticErrors d)).
Proof.
  assert (Hb : In demoReport (demoReports false false)) by (left; reflexivity).
  assert (Hr : In demoBroken (Summary.results demoReport))
    by (right; left; reflexivity).
  assert (Hst : FileResult.status demoBroken = failed) by reflexivity.
  repeat split; try assumption.
  exact (failed_errorCount_is_diagnostics_total (demoWorld false)
           (demoOptions false) tt demoReport demoBroken Hb Hr Hst).
Defined.

(** C1 (where the code departs from it).  The loader rejects the bytes
    of Corrupt.gp5, which is a failure of step 1; the file is recorded
    with status [failed] and zero errors, in a dry run and in a full
    run, not with status [error]. *)
Theorem loader_failure_recorded_as_failed :
  outcome (processFile_export (demoWorld false) "/repo/data/raw/Corrupt.gp5" tt)
  = Throw unsupportedFormat
  /\ recorded (demoReports false true)
     = [("Good.gp5", passed, None); ("Broken.GP5", failed, Some 2);
        ("Corrupt.gp5", failed, Some 0)]
  /\ recorded (demoReports false false)
     = [("Good.gp5", passed, None); ("Broken.GP5", failed, Some 2);
        ("Corrupt.gp5", failed, Some 0)].
Proof. repeat split; vm_compute; reflexivity. Qed.

(** C2 (where the code departs from it).  The re-import of Broken.GP5
    fails, so its validation is [failed]; when the directory for the
    failing inputs cannot be created the exception of [ensureDir] leaves
    [processFile], and the file is recorded with status [error].  The
    batch still visits the files after it. *)
Theorem blocked_directory_changes_failed_to_error :
  readScore (demoWorld true) "\title BROKEN" = Throw semanticFailure
  /\ recorded (demoReports false false)
     = [("Good.gp5", passed, None); ("Broken.GP5", failed, Some 2);
        ("Corrupt.gp5", failed, Some 0)]
  /\ recorded (demoReports true false)
     = [("Good.gp5", passed, None); ("Broken.GP5", error, None);
        ("Corrupt.gp5", error, None)].
Proof. repeat split; vm_compute; reflexivity. Qed.

(** C8 (where the code departs from it).  Over the same corpus, with
    the directory for the failing inputs blocked, the dry run reports
    two failed files and the full run reports none: the two reports
    differ. *)
Theorem dry_run_report_differs_when_directory_blocked :
  map Summary.failed (demoReports true true) = [2]
  /\ map Summary.failed (demoReports true false) = [0]
  /\ demoReports true true <> demoReports true false.
Proof.
  assert (H1 : map Summary.failed (demoReports true true) = [2])
    by (vm_compute; reflexivity).
  assert (H2 : map Summary.failed (demoReports true false) = [0])
    by (vm_compute; reflexivity).
  repeat split; try assumption.
  intros Heq. rewrite Heq, H2 in H1. discriminate H1.
Qed.

(** * Further properties *)

(** ** The run of [main], step by step *)

Section MainSteps.
Context {S Bytes Score : Type}.
Variable w : World S Bytes Score.

(** [main] as an equation: which calls it makes, in which state, and
    what it ends with. *)
Lemma main_unfold (opts : Options.t) (s : S) :
  let inDir := path_resolve w (Options.in_ opts) in
  let outDir := path_resolve w (Options.out opts) in
  let reportPath := path_join w outDir "report.json" in
  let logPath := path_join w outDir "log.txt" in
  let head := (main_banner w opts ++ [EvMkdir outDir])%list in
  match fs_mkdir w outDir s with
  | (Some msg, s1) => main w opts s = (Throw (node_error msg), s1, head)
  | (None, s1) =>
      match fs_readdir w inDir s1 with
      | (inr msg, s2) =>
          main w opts s
          = (Throw (node_error msg), s2, (head ++ [EvReaddir inDir])%list)
      | (inl files, s2) =>
          let gp5Files := filter is_gp5 files in
          match main_loop w inDir outDir opts (List.length gp5Files) 0
                  gp5Files [] [] s2 with
          | (Throw e, s3, evl) =>
              main w opts s
              = (Throw e, s3, (head ++ [EvReaddir inDir] ++ evl)%list)
          | (Ok st, s3, evl) =>
              let b := summary_of w opts (toISOString w s3) files (fst st) in
              let report := EvWriteFile reportPath (CReport b) in
              let log :=
                EvWriteFile logPath (CText (VStr (join newline (snd st)))) in
              match fs_writeFile w reportPath (CReport b) s3 with
              | (Some msg, s4) =>
                  main w opts s
                  = (Throw (node_error msg), s4,
                     (head ++ [EvReaddir inDir] ++ evl ++ [report])%list)
              | (None, s4) =>
                  match fs_writeFile w logPath
                          (CText (VStr (join newline (snd st)))) s4 with
                  | (Some msg, s5) =>
                      main w opts s
                      = (Throw (node_error msg), s5,
                         (head ++ [EvReaddir inDir] ++ evl ++ [report; log])%list)
                  | (None, s5) =>
                      main w opts s
                      = (Ok tt, s5,
                         (head ++ [EvReaddir inDir] ++ evl ++ [report; log]
                          ++ main_footer w opts b)%list)
                  end
              end
          end
      end
  end.
Proof.
  intros inDir outDir reportPath logPath head. subst head.
  unfold main, main_banner, main_footer, summary_of.
  fold inDir outDir. fold reportPath logPath.
  cbv beta iota zeta delta [bind console_log emit ensureDir fs_call readdir fs_query writeFile ret].
  destruct (fs_mkdir w outDir s) as [[msg |] s1]; [reflexivity |].
  destruct (fs_readdir w inDir s1) as [[files | msg] s2]; [| reflexivity].
  destruct (main_loop w inDir outDir opts (List.length (filter is_gp5 files)) 0
              (filter is_gp5 files) [] [] s2) as [[[st | e] s3] evl];
    [| reflexivity].
  cbv zeta.
  destruct (fs_writeFile w reportPath _ s3) as [[msg |] s4].
  { cbn. rewrite <- ?app_assoc. reflexivity. }
  destruct (fs_writeFile w logPath _ s4) as [[msg |] s5].
  { cbn. rewrite <- ?app_assoc. reflexivity. }
  destruct (Options.verbose opts); cbn; rewrite <- ?app_assoc; reflexivity.
Qed.

End MainSteps.

(** ** More on the normalizer *)

(** [mapItem] written out on an item whose properties can be read. *)
Lemma mapItem_value (item : value) :
  nullish item = false ->
  let start := js_or (prop item "start") (VObj []) in
  mapItem item =
  Ok (Item.mk
        (js_or (prop item "code") VNull)
        (js_or (prop item "message") VNull)
        (if is_undefined (prop item "severity") then VNull
         else prop item "severity")
        (Position.mk
           (js_coalesce (prop start "line") (js_coalesce (prop item "line") VNull))
           (js_coalesce (prop start "col")
              (js_coalesce (prop start "column")
                 (js_coalesce (prop item "column") VNull)))
           (js_coalesce (prop start "offset")
              (js_coalesce (prop item "offset") VNull)))
        (if truthy (prop item "end")
         then Some (Position.mk (prop (prop item "end") "line")
                      (prop (prop item "end") "col")
                      (prop (prop item "end") "offset"))
         else None)).
Proof.
  intros Hitem start. unfold mapItem.
  assert (Hstart : nullish start = false).
  { subst start. unfold js_or.
    destruct (truthy (prop item "start")) eqn:Ht; [| reflexivity].
    apply truthy_not_nullish, Ht. }
  rewrite !(js_get_not_nullish item) by exact Hitem. cbn [rbind].
  fold start.
  rewrite !(js_get_not_nullish start) by exact Hstart. cbn [rbind].
  destruct (truthy (prop item "end")) eqn:He; [| reflexivity].
  rewrite !(js_get_not_nullish (prop item "end"))
    by (apply truthy_not_nullish, He).
  reflexivity.
Qed.

(** X1.  [mapItem] throws exactly on the items null and undefined, and
    what it throws is the TypeError of the first property read,
    [item.start]. *)
Theorem mapItem_throws_exactly_on_null (item : value) :
  match mapItem item with
  | Ok _ => nullish item = false
  | Throw e =>
      nullish item = true
      /\ e = TypeError ("Cannot read properties of " ++ text_of item
                        ++ " (reading 'start')")
  end.
Proof.
  destruct (nullish item) eqn:Hn.
  - destruct item; try discriminate Hn; cbn; split; reflexivity.
  - rewrite (mapItem_value item Hn). reflexivity.
Qed.

Lemma js_or_null_normal (v : value) :
  js_or v VNull = VNull \/ truthy (js_or v VNull) = true.
Proof. unfold js_or. destruct (truthy v) eqn:Ht; [right; exact Ht | left; reflexivity]. Qed.

Lemma js_coalesce_null_defined (a b : value) :
  is_undefined b = false -> is_undefined (js_coalesce a b) = false.
Proof. unfold js_coalesce. destruct a; cbn; auto. Qed.

(** X2.  What a normalized item can hold: [code] and [message] are
    null or truthy (a code 0 and an empty message become null),
    [severity] is never undefined (a severity 0 is kept), and no field
    of [start] is undefined. *)
Theorem mapItem_normal_form (item : value) :
  match mapItem item with
  | Ok it =>
      (Item.code it = VNull \/ truthy (Item.code it) = true)
      /\ (Item.message it = VNull \/ truthy (Item.message it) = true)
      /\ is_undefined (Item.severity it) = false
      /\ is_undefined (Position.line (Item.start it)) = false
      /\ is_undefined (Position.column (Item.start it)) = false
      /\ is_undefined (Position.offset (Item.start it)) = false
  | Throw _ => True
  end.
Proof.
  destruct (nullish item) eqn:Hn.
  - destruct item; try discriminate Hn; exact I.
  - rewrite (mapItem_value item Hn). cbn.
    repeat split;
      try apply js_or_null_normal;
      repeat (apply js_coalesce_null_defined); try reflexivity.
    destruct (is_undefined (prop item "severity")) eqn:Hs; [reflexivity | exact Hs].
Qed.

Lemma mapItem_defined (item : value) :
  nullish item = false -> exists it, mapItem item = Ok it.
Proof. intros Hn. rewrite (mapItem_value item Hn). eauto. Qed.

(** X3.  [items.map(mapItem)] is all or nothing: it returns one
    normalized item per element, in order, when no element is null or
    undefined, and throws as soon as one is. *)
Theorem array_map_mapItem_all_or_nothing (items : list value) :
  match array_map mapItem items with
  | Ok mapped => Forall2 (fun x y => mapItem x = Ok y) items mapped
  | Throw _ => Exists (fun x => nullish x = true) items
  end.
Proof.
  induction items as [| x items IH]; cbn [array_map]; [constructor |].
  destruct (nullish x) eqn:Hn.
  - assert (Hthrow : exists e, mapItem x = Throw e).
    { destruct x; try discriminate Hn; cbn; eauto. }
    destruct Hthrow as [e ->]. cbn. left. exact Hn.
  - destruct (mapItem_defined x Hn) as [it Hit]. rewrite Hit. cbn [rbind].
    destruct (array_map mapItem items) as [mapped | e]; cbn [rbind].
    + constructor; [exact Hit | exact IH].
    + right. exact IH.
Qed.

Lemma array_map_mapItem_defined (items : list value) :
  Forall (fun x => nullish x = false) items ->
  exists mapped,
    array_map mapItem items = Ok mapped
    /\ Forall2 (fun x y => mapItem x = Ok y) items mapped.
Proof.
  induction 1 as [| x items Hx _ (mapped & Hm & Hall)]; cbn [array_map].
  - exists []. split; [reflexivity | constructor].
  - destruct (mapItem_defined x Hx) as [it Hit]. rewrite Hit, Hm. cbn [rbind].
    eexists. split; [reflexivity |]. constructor; assumption.
Qed.

(** One category of a failure whose items can all be mapped. *)
Lemma mapCategory_defined (error : value) (key : string) :
  nullish error = false ->
  Forall (fun x => nullish x = false) (items_of error key) ->
  exists new,
    mapCategory error key = Ok new
    /\ Forall2 (fun x y => mapItem x = Ok y)
         (items_of error key) (assigned [] new).
Proof.
  intros Herr Hitems. unfold mapCategory, items_of in *.
  rewrite (js_get_not_nullish error key Herr). cbn [rbind].
  destruct (truthy (prop error key)) eqn:Ht.
  - rewrite (js_get_not_nullish (prop error key) "items")
      by (apply truthy_not_nullish, Ht).
    cbn [rbind].
    destruct (prop (prop error key) "items");
      try (exists None; split; [reflexivity | constructor]).
    destruct (array_map_mapItem_defined items Hitems) as (mapped & -> & Hall).
    cbn. exists (Some mapped). split; [reflexivity | exact Hall].
  - exists None. split; [reflexivity | constructor].
Qed.

Lemma Forall2_length_eq {A B} (R : A -> B -> Prop) (l : list A) (l' : list B) :
  Forall2 R l l' -> List.length l = List.length l'.
Proof. induction 1; cbn; congruence. Qed.

(** X4.  A failure whose message is obtained (its [message] is
    truthy, or [String(error)] returns) and whose three collections
    hold no null or undefined item is normalized without loss: each
    category holds the mapped items of its collection, one per item
    and in order, so the total is the number of items the failure
    carries. *)
Theorem extractDiagnostics_keeps_every_item (error : value) :
  message_obtained error ->
  Forall (fun x => nullish x = false) (items_of error "lexerDiagnostics") ->
  Forall (fun x => nullish x = false) (items_of error "parserDiagnostics") ->
  Forall (fun x => nullish x = false) (items_of error "semanticDiagnostics") ->
  exists d,
    extractDiagnostics error = Ok d
    /\ Forall2 (fun x y => mapItem x = Ok y)
         (items_of error "lexerDiagnostics") (Diagnostics.lexerErrors d)
    /\ Forall2 (fun x y => mapItem x = Ok y)
         (items_of error "parserDiagnostics") (Diagnostics.parserErrors d)
    /\ Forall2 (fun x y => mapItem x = Ok y)
         (items_of error "semanticDiagnostics") (Diagnostics.semanticErrors d)
    /\ diagnosticsTotal d
       = List.length (items_of error "lexerDiagnostics")
         + List.length (items_of error "parserDiagnostics")
         + List.length (items_of error "semanticDiagnostics").
Proof.
  intros Hobt Hl Hp Hs.
  destruct (extractDiagnostics_obtained error Hobt) as [d Hd].
  destruct (nullish error) eqn:Herr.
  - destruct error; try discriminate Herr;
      (eexists; split; [reflexivity |]; cbn; repeat split; constructor).
  - destruct (mapCategory_defined error "lexerDiagnostics" Herr Hl)
      as (lex & Hlex & Hlex2).
    destruct (mapCategory_defined error "parserDiagnostics" Herr Hp)
      as (par & Hpar & Hpar2).
    destruct (mapCategory_defined error "semanticDiagnostics" Herr Hs)
      as (sem & Hsem & Hsem2).
    exists d. split; [exact Hd |].
    unfold extractDiagnostics in Hd. rewrite Hlex, Hpar, Hsem in Hd.
    match type of Hd with
    | rbind ?x _ = _ => destruct x as [m | e]; [| discriminate Hd]
    end.
    cbn [rbind] in Hd.
    match type of Hd with
    | rbind ?x _ = _ => destruct x as [t | e]; [| discriminate Hd]
    end.
    cbn [rbind] in Hd. injection Hd as <-.
    cbn [Diagnostics.lexerErrors Diagnostics.parserErrors
         Diagnostics.semanticErrors].
    repeat split; try assumption.
    unfold diagnosticsTotal.
    cbn [Diagnostics.lexerErrors Diagnostics.parserErrors
         Diagnostics.semanticErrors].
    rewrite (Forall2_length_eq _ _ _ Hlex2), (Forall2_length_eq _ _ _ Hpar2),
      (Forall2_length_eq _ _ _ Hsem2).
    reflexivity.
Qed.

Lemma extractDiagnostics_keeps_every_item_witness :
  message_obtained semanticFailure
  /\ Forall (fun x => nullish x = false) (items_of semanticFailure "lexerDiagnostics")
  /\ Forall (fun x => nullish x = false) (items_of semanticFailure "parserDiagnostics")
  /\ Forall (fun x => nullish x = false) (items_of semanticFailure "semanticDiagnostics")
  /\ exists d,
       extractDiagnostics semanticFailure = Ok d
       /\ Forall2 (fun x y => mapItem x = Ok y)
            (items_of semanticFailure "lexerDiagnostics") (Diagnostics.lexerErrors d)
       /\ Forall2 (fun x y => mapItem x = Ok y)
            (items_of semanticFailure "parserDiagnostics") (Diagnostics.parserErrors d)
       /\ Forall2 (fun x y => mapItem x = Ok y)
            (items_of semanticFailure "semanticDiagnostics")
            (Diagnostics.semanticErrors d)
       /\ diagnosticsTotal d
          = List.length (items_of semanticFailure "lexerDiagnostics")
            + List.length (items_of semanticFailure "parserDiagnostics")
            + List.length (items_of semanticFailure "semanticDiagnostics").
Proof.
  assert (H0 : message_obtained semanticFailure) by (left; reflexivity).
  assert (H1 : Forall (fun x => nullish x = false)
                 (items_of semanticFailure "lexerDiagnostics"))
    by (vm_compute; constructor).
  assert (H2 : Forall (fun x => nullish x = false)
                 (items_of semanticFailure "parserDiagnostics"))
    by (vm_compute; constructor).
  assert (H3 : Forall (fun x => nullish x = false)
                 (items_of semanticFailure "semanticDiagnostics"))
    by (vm_compute; repeat constructor).
  repeat split; try assumption.
  exact (extractDiagnostics_keeps_every_item semanticFailure H0 H1 H2 H3).
Defined.

Lemma array_map_mapItem_throws (items : list value) :
  forallb (fun x => negb (nullish x)) items = false ->
  exists e, array_map mapItem items = Throw e.
Proof.
  induction items as [| x items IH]; cbn [forallb array_map];
    [discriminate |].
  destruct (nullish x) eqn:Hn; cbn [negb andb].
  - intros _. destruct x; try discriminate Hn; cbn; eauto.
  - intros Hrest. destruct (mapItem_defined x Hn) as [it ->].
    destruct (IH Hrest) as [e ->]. cbn. eauto.
Qed.

(** One category of a failure that holds an item that cannot be
    mapped. *)
Lemma mapCategory_throws (error : value) (key : string) :
  nullish error = false ->
  mappable error key = false ->
  exists e, mapCategory error key = Throw e.
Proof.
  intros Herr. unfold mapCategory, mappable, items_of.
  rewrite (js_get_not_nullish error key Herr). cbn [rbind].
  destruct (truthy (prop error key)) eqn:Ht; [| discriminate].
  rewrite (js_get_not_nullish (prop error key) "items")
    by (apply truthy_not_nullish, Ht).
  cbn [rbind].
  destruct (prop (prop error key) "items"); try discriminate.
  intros Hitems. destruct (array_map_mapItem_throws items Hitems) as [e ->].
  cbn. eauto.
Qed.

Lemma mappable_Forall (error : value) (key : string) :
  mappable error key = true ->
  Forall (fun x => nullish x = false) (items_of error key).
Proof.
  unfold mappable. intros H. apply Forall_forall. intros x Hx.
  rewrite forallb_forall in H. specialize (H x Hx).
  destruct (nullish x); [discriminate H | reflexivity].
Qed.

(** X19.  Best-effort diagnostics.  On a failure whose message is
    obtained the normalizer returns a record, and its categories are
    filled in the order lexer, parser, semantic up to the first
    collection that holds a null or undefined item: each category
    before that one holds the normalized items of its collection, one
    per item and in order; that category and the ones after it are
    empty. *)
Theorem extractDiagnostics_fills_categories_in_order (error : value) :
  message_obtained error ->
  let lexed := mappable error "lexerDiagnostics" in
  let parsed := lexed && mappable error "parserDiagnostics" in
  let checked := parsed && mappable error "semanticDiagnostics" in
  exists d,
    extractDiagnostics error = Ok d
    /\ category_is lexed error "lexerDiagnostics" (Diagnostics.lexerErrors d)
    /\ category_is parsed error "parserDiagnostics" (Diagnostics.parserErrors d)
    /\ category_is checked error "semanticDiagnostics"
         (Diagnostics.semanticErrors d).
Proof.
  intros Hobt lexed parsed checked.
  destruct (extractDiagnostics_obtained error Hobt) as [d Hd].
  exists d. split; [exact Hd |].
  destruct (nullish error) eqn:Herr.
  { destruct error; try discriminate Herr; injection Hd as <-;
      cbn; repeat split; constructor. }
  unfold extractDiagnostics in Hd.
  match type of Hd with
  | rbind ?x _ = _ => destruct x as [m | e]; [| discriminate Hd]
  end.
  cbn [rbind] in Hd.
  match type of Hd with
  | rbind ?x _ = _ => destruct x as [t | e]; [| discriminate Hd]
  end.
  cbn [rbind] in Hd. cbv zeta in Hd.
  subst checked parsed lexed.
  destruct (mappable error "lexerDiagnostics") eqn:Hl; cbn [andb].
  2: { destruct (mapCategory_throws error "lexerDiagnostics" Herr Hl) as [e He].
       rewrite He in Hd. injection Hd as <-. cbn. auto. }
  destruct (mapCategory_defined error "lexerDiagnostics" Herr
              (mappable_Forall _ _ Hl)) as (lex & Hlex & Hlex2).
  rewrite Hlex in Hd.
  destruct (mappable error "parserDiagnostics") eqn:Hp; cbn [andb].
  2: { destruct (mapCategory_throws error "parserDiagnostics" Herr Hp) as [e He].
       rewrite He in Hd. injection Hd as <-. cbn. auto. }
  destruct (mapCategory_defined error "parserDiagnostics" Herr
              (mappable_Forall _ _ Hp)) as (par & Hpar & Hpar2).
  rewrite Hpar in Hd.
  destruct (mappable error "semanticDiagnostics") eqn:Hs; cbn [andb].
  2: { destruct (mapCategory_throws error "semanticDiagnostics" Herr Hs)
         as [e He].
       rewrite He in Hd. injection Hd as <-. cbn. auto. }
  destruct (mapCategory_defined error "semanticDiagnostics" Herr
              (mappable_Forall _ _ Hs)) as (sem & Hsem & Hsem2).
  rewrite Hsem in Hd. injection Hd as <-. cbn. auto.
Qed.

Lemma extractDiagnostics_fills_categories_in_order_witness :
  let item := VObj [("code", VNum 209); ("message", VStr "m1")] in
  let error :=
    VObj [("lexerDiagnostics", VObj [("items", VArr [item])]);
          ("parserDiagnostics", VObj [("items", VArr [VNull])]);
          ("semanticDiagnostics", VObj [("items", VArr [item])])] in
  message_obtained error
  /\ exists d,
       extractDiagnostics error = Ok d
       /\ Forall2 (fun x y => mapItem x = Ok y) [item] (Diagnostics.lexerErrors d)
       /\ Diagnostics.parserErrors d = []
       /\ Diagnostics.semanticErrors d = [].
Proof.
  cbv zeta.
  assert (Hobt : message_obtained
                   (VObj [("lexerDiagnostics",
                           VObj [("items",
                                  VArr [VObj [("code", VNum 209);
                                              ("message", VStr "m1")]])]);
                          ("parserDiagnostics", VObj [("items", VArr [VNull])]);
                          ("semanticDiagnostics",
                           VObj [("items",
                                  VArr [VObj [("code", VNum 209);
                                              ("message", VStr "m1")]])])]))
    by (right; eexists; reflexivity).
  split; [exact Hobt |].
  exact (extractDiagnostics_fills_categories_in_order _ Hobt).
Defined.

(** X5.  A thrown value that is not an object (undefined, null, a
    boolean, a string, or a number or an array of such values with
    every number a safe integer) is normalized to the record whose
    message is [String(error)], with a null type and no diagnostics;
    an array that holds an object is normalized so when [String] can
    convert it, and makes the normalizer throw what [String] throws
    when it cannot. *)
Theorem extractDiagnostics_of_non_object (error : value) :
  safe_numbers error = true ->
  match error with
  | VObj _ | VErr _ _ => True
  | _ =>
      extractDiagnostics error
      = rbind (js_String error)
          (fun s => Ok (Diagnostics.mk (VStr s) VNull [] [] []))
  end.
Proof.
  intros _.
  destruct error as [| | b | z | s | items | fields | name fields];
    try exact I; try reflexivity.
  - destruct b; reflexivity.
  - unfold extractDiagnostics. cbn. destruct (Z.eqb z 0); reflexivity.
  - unfold extractDiagnostics. cbn. destruct (String.eqb s ""); reflexivity.
  - unfold extractDiagnostics. cbn [truthy js_get].
    destruct (String.eqb "message" "length") eqn:E; [discriminate E |].
    cbn [rbind truthy]. destruct (js_String (VArr items)); reflexivity.
Qed.

Lemma extractDiagnostics_of_non_object_witness :
  let error := VArr [VNum 3; VNull; VStr "a"] in
  safe_numbers error = true
  /\ extractDiagnostics error
     = Ok (Diagnostics.mk (VStr "3,,a") VNull [] [] []).
Proof.
  cbv zeta. split; [reflexivity |].
  exact (extractDiagnostics_of_non_object
           (VArr [VNum 3; VNull; VStr "a"]) eq_refl).
Defined.

(** ** More on one file *)

Section FileSteps.
Context {S Bytes Score : Type}.
Variable w : World S Bytes Score.

Lemma processFile_catch_handled outDir inputPath fileName atexName options atex e s :
  handled_as_failure options
    (processFile_catch w outDir inputPath fileName atexName options atex e s).
Proof.
  unfold handled_as_failure.
  destruct (triple_processFile_catch w outDir inputPath fileName atexName
              options atex e s) as [_ H].
  destruct (Options.dryRun options) eqn:Hdry.
  - clear H. unfold processFile_catch, bind, lift, ret. rewrite Hdry.
    destruct (extractDiagnostics e) as [d | e'] eqn:Hd; [reflexivity |].
    left. exact (extractDiagnostics_throws e e' Hd).
  - destruct (outcome (processFile_catch w outDir inputPath fileName atexName
                         options atex e s)) as [r | e'].
    + destruct H as [d ->]. reflexivity.
    + destruct H as [Hnode | ->]; [right; split; [reflexivity | exact Hnode] |].
      left. reflexivity.
Qed.

(** X6.  [processFile] returns the [passed] result exactly when the
    read, the load, the export, the initialisation of the importer and
    the re-import all succeed, and then it has done nothing but read the
    input (and print the file name when verbose).  In every other case
    the run goes through the catch block: it returns a [failed] result,
    or rejects with the TypeError of [String(error)], or, outside a dry
    run, rejects with the error of a file-system call. *)
Theorem processFile_passes_exactly_on_round_trip
    (inDir outDir fileName : string) (options : Options.t) (s : S) :
  let inputPath := path_join w inDir fileName in
  let atexName :=
    (path_basename w fileName (path_extname w fileName) ++ ".atex")%string in
  let banner :=
    if Options.verbose options
    then [EvConsoleLog [VStr ("Processing: " ++ fileName)]]
    else [] in
  let run := processFile w inDir outDir fileName options s in
  match fs_readFile w inputPath s with
  | (inr _, _) => handled_as_failure options run
  | (inl data, s1) =>
      match loadScoreFromBytes w data with
      | Throw _ => handled_as_failure options run
      | Ok score =>
          match exportToString w score with
          | Throw _ => handled_as_failure options run
          | Ok text =>
              match initFromString w text, readScore w text with
              | Ok _, Ok _ =>
                  run = (Ok (passedResult fileName atexName), s1,
                         (banner ++ [EvReadFile inputPath])%list)
              | _, _ => handled_as_failure options run
              end
          end
      end
  end.
Proof.
  intros inputPath atexName banner run. subst run banner.
  unfold processFile. fold inputPath atexName.
  assert (Hbanner : forall k : M S FileResult.t,
             bind (if Options.verbose options
                   then console_log [VStr ("Processing: " ++ fileName)]
                   else ret tt) (fun _ => k) s
             = match k s with
               | (r, s2, ev2) =>
                   (r, s2,
                    ((if Options.verbose options
                      then [EvConsoleLog [VStr ("Processing: " ++ fileName)]]
                      else []) ++ ev2)%list)
               end).
  { intros k. unfold bind. destruct (Options.verbose options); reflexivity. }
  rewrite Hbanner. clear Hbanner.
  unfold try_assign, processFile_export, processFile_reimport, readFile,
    fs_query, bind, lift, try_catch, ret.
  destruct (fs_readFile w inputPath s) as [[data | msg] s1];
    [destruct (loadScoreFromBytes w data) as [score | e1];
     [destruct (exportToString w score) as [text | e2];
      [destruct (initFromString w text) as [[] | e3];
       destruct (readScore w text) as [[] | e4] | ] | ] | ];
    try reflexivity;
    match goal with
    | |- context [processFile_catch w ?o ?i ?f ?a ?opts ?x ?e ?st] =>
        pose proof (processFile_catch_handled o i f a opts x e st) as Hh;
        destruct (processFile_catch w o i f a opts x e st) as [[r' s'] ev'];
        exact Hh
    end.
Qed.

End FileSteps.

(** ** More on the batch *)

Section BatchSteps.
Context {S Bytes Score : Type}.
Variable w : World S Bytes Score.

(** One iteration, for any property the file's result is known to
    have. *)
Lemma triple_main_step_for (P : FileResult.t -> Prop) (Ep : value -> Prop)
    (V : event -> Prop) inDir outDir opts total i fileName results logLines :
  (forall ev, quiet ev -> V ev) ->
  triple (processFile w inDir outDir fileName opts) P Ep V ->
  (forall e, Ep e ->
     exists msg, js_get e "message" = Ok (VStr msg)
                 /\ P (errorResult fileName (VStr msg))) ->
  triple (main_step w inDir outDir opts total i fileName results logLines)
    (fun st => exists r, fst st = (results ++ [r])%list /\ P r)
    (fun _ => False) V.
Proof.
  intros HV Hfile Herr. unfold main_step.
  eapply triple_bind with (P := fun _ => True);
    [apply triple_emit; [apply HV |]; exact I |].
  intros _ _.
  eapply triple_try_catch with (E := Ep).
  - eapply triple_bind; [exact Hfile |].
    intros res Hres. cbn zeta.
    destruct (Status_eqb (FileResult.status res) passed).
    + eapply triple_bind with (P := fun _ => True).
      { apply triple_emit; [apply HV |]; exact I. }
      intros _ _. apply triple_ret. exists res. split; [reflexivity | exact Hres].
    + eapply triple_bind with (P := fun _ => True).
      { apply triple_emit; [apply HV |]; exact I. }
      intros _ _. apply triple_ret. exists res. split; [reflexivity | exact Hres].
  - intros e He. destruct (Herr e He) as (msg & Hmsg & Hp).
    eapply triple_bind with (P := fun m => m = VStr msg).
    { apply triple_lift. rewrite Hmsg. reflexivity. }
    intros ? ->.
    eapply triple_bind with (P := fun _ => True);
      [apply triple_emit; [apply HV |]; exact I |].
    intros _ _. apply triple_ret. eexists. split; [reflexivity | exact Hp].
Qed.

(** The loop, for any property every iteration gives the result it
    pushes. *)
Lemma triple_main_loop_for (P : string -> FileResult.t -> Prop)
    (V : event -> Prop) inDir outDir opts total rest :
  (forall i fileName results logLines,
     triple (main_step w inDir outDir opts total i fileName results logLines)
       (fun st => exists r, fst st = (results ++ [r])%list /\ P fileName r)
       (fun _ => False) V) ->
  forall i results logLines,
    triple (main_loop w inDir outDir opts total i rest results logLines)
      (fun st => exists new, fst st = (results ++ new)%list /\ Forall2 P rest new)
      (fun _ => False) V.
Proof.
  intros Hstep.
  induction rest as [| fileName rest IH]; intros i results logLines; cbn.
  - apply triple_ret. exists []. rewrite app_nil_r. split; [reflexivity | constructor].
  - eapply triple_bind; [apply Hstep |].
    intros [results1 logLines1] (r & Hr & Hp). cbn in Hr |- *. subst results1.
    eapply triple_weaken; [apply IH | | auto].
    intros [results2 logLines2] (new & Hr2 & Hall). cbn in *.
    exists (r :: new). rewrite <- app_assoc in Hr2. split; [exact Hr2 |].
    constructor; assumption.
Qed.

(** Where a report comes from: the output directory was created, the
    input directory was listed, the loop ran over the filtered listing
    from the state after the listing, and the report is the summary of
    what the loop returned. *)
Lemma report_origin (opts : Options.t) (s : S) (b : Summary.t) :
  In b (reports_of (events (main w opts s))) ->
  exists s1 files s2 st s3 evl,
    fs_mkdir w (path_resolve w (Options.out opts)) s = (None, s1)
    /\ fs_readdir w (path_resolve w (Options.in_ opts)) s1 = (inl files, s2)
    /\ main_loop w (path_resolve w (Options.in_ opts))
         (path_resolve w (Options.out opts)) opts
         (List.length (filter is_gp5 files)) 0 (filter is_gp5 files) [] [] s2
       = (Ok st, s3, evl)
    /\ b = summary_of w opts (toISOString w s3) files (fst st).
Proof.
  intros Hb. pose proof (main_unfold w opts s) as H. cbv zeta in H.
  assert (Hbanner : reports_of (main_banner w opts) = []) by reflexivity.
  assert (Hfooter : forall b', reports_of (main_footer w opts b') = []).
  { intros b'. unfold main_footer. destruct (Options.verbose opts); reflexivity. }
  destruct (fs_mkdir w (path_resolve w (Options.out opts)) s)
    as [[msg |] s1] eqn:Hmkdir.
  { rewrite H in Hb. cbn in Hb. destruct Hb. }
  destruct (fs_readdir w (path_resolve w (Options.in_ opts)) s1)
    as [[files | msg] s2] eqn:Hreaddir.
  2: { rewrite H in Hb. cbn in Hb. destruct Hb. }
  pose proof (triple_main_loop w (path_resolve w (Options.in_ opts))
                (path_resolve w (Options.out opts)) opts
                (List.length (filter is_gp5 files)) (filter is_gp5 files)
                0 [] [] s2) as [Hev Hout].
  destruct (main_loop w (path_resolve w (Options.in_ opts))
              (path_resolve w (Options.out opts)) opts
              (List.length (filter is_gp5 files)) 0 (filter is_gp5 files)
              [] [] s2) as [[[st | e] s3] evl] eqn:Hloop; [| destruct Hout].
  cbn in Hev.
  exists s1, files, s2, st, s3, evl.
  split; [reflexivity |]. split; [exact Hreaddir |]. split; [exact Hloop |].
  assert (Hrep : reports_of (events (main w opts s))
                 = [summary_of w opts (toISOString w s3) files (fst st)]).
  { destruct (fs_writeFile w _ (CReport _) s3) as [[msg |] s4].
    - rewrite H. unfold events. cbn [snd].
      rewrite !reports_of_app, Hbanner, (reports_of_not_report evl Hev).
      reflexivity.
    - destruct (fs_writeFile w _ (CText _) s4) as [[msg |] s5];
        rewrite H; unfold events; cbn [snd];
        rewrite !reports_of_app, Hbanner, (reports_of_not_report evl Hev),
          ?Hfooter; reflexivity. }
  rewrite Hrep in Hb. destruct Hb as [<- | []]. reflexivity.
Qed.

End BatchSteps.

Lemma Forall2_In_right {A B} (P : A -> B -> Prop) (l : list A) (l' : list B) (y : B) :
  Forall2 P l l' -> In y l' -> exists x, In x l /\ P x y.
Proof.
  induction 1 as [| x y' l l' Hxy _ IH]; intros Hin; [destruct Hin |].
  destruct Hin as [-> | Hin].
  - exists x. split; [left; reflexivity | exact Hxy].
  - destruct (IH Hin) as (x' & Hx' & Hp). exists x'. split; [right |]; assumption.
Qed.

Lemma triple_events_weaken {S A} (m : M S A) Q E (V V' : event -> Prop) :
  triple m Q E V -> (forall ev, V ev -> V' ev) -> triple m Q E V'.
Proof.
  intros Hm HV s. destruct (Hm s) as [Hev Hout]. split; [| exact Hout].
  eapply Forall_impl; [exact HV | exact Hev].
Qed.

Section ResultShapes.
Context {S Bytes Score : Type}.
Variable w : World S Bytes Score.

Lemma triple_processFile_shape inDir outDir fileName opts :
  triple (processFile w inDir outDir fileName opts)
    (recorded_shape w fileName) is_rejection not_report.
Proof.
  eapply triple_weaken; [apply triple_processFile | | auto].
  intros r [Hr | Hr]; [left | right; left]; exact Hr.
Qed.

Lemma quiet_not_report (ev : event) : quiet ev -> not_report ev.
Proof. destruct ev; cbn; auto. intros []. Qed.

Lemma loop_shapes inDir outDir opts total rest i results logLines (s : S) :
  exists st s' evl,
    main_loop w inDir outDir opts total i rest results logLines s = (Ok st, s', evl)
    /\ exists new, fst st = (results ++ new)%list
                   /\ Forall2 (recorded_shape w) rest new.
Proof.
  assert (H : triple (main_loop w inDir outDir opts total i rest results logLines)
                (fun st => exists new, fst st = (results ++ new)%list
                                       /\ Forall2 (recorded_shape w) rest new)
                (fun _ => False) not_report).
  { apply triple_main_loop_for. intros i' fileName results' logLines'.
    apply triple_main_step_for with (Ep := is_rejection).
    - exact quiet_not_report.
    - apply triple_processFile_shape.
    - intros e He. destruct (rejection_message e He) as [msg Hmsg].
      exists msg. split; [exact Hmsg |].
      right. right. exists msg. reflexivity. }
  destruct (H s) as [_ Hout].
  destruct (main_loop w inDir outDir opts total i rest results logLines s)
    as [[[st | e] s'] evl]; [| destruct Hout].
  exists st, s', evl. split; [reflexivity | exact Hout].
Qed.

Lemma recorded_shape_input (fileName : string) (r : FileResult.t) :
  recorded_shape w fileName r -> FileResult.input r = fileName.
Proof. intros [-> | [[d ->] | [msg ->]]]; reflexivity. Qed.

(** X7.  Every result of every report is one of three objects: the
    [passed] object with the file name and the name of its export; the
    [failed] object with, besides, diagnostics and their total as
    [errorCount]; or the [error] object with only the file name and a
    message that is a string.  The export name is the file name without
    its extension, followed by ".atex". *)
Theorem recorded_results_have_one_of_three_shapes
    (opts : Options.t) (s : S) (b : Summary.t) (r : FileResult.t) :
  In b (reports_of (events (main w opts s))) ->
  In r (Summary.results b) ->
  recorded_shape w (FileResult.input r) r.
Proof.
  intros Hb Hr.
  destruct (report_origin w opts s b Hb)
    as (s1 & files & s2 & st & s3 & evl & _ & _ & Hloop & ->).
  destruct (loop_shapes (path_resolve w (Options.in_ opts))
              (path_resolve w (Options.out opts)) opts
              (List.length (filter is_gp5 files)) (filter is_gp5 files)
              0 [] [] s2) as (st' & s' & evl' & Hloop' & new & Hnew & Hall).
  rewrite Hloop in Hloop'. injection Hloop' as <- <- <-.
  cbn in Hnew, Hr. rewrite Hnew in Hr.
  destruct (Forall2_In_right _ _ _ r Hall Hr) as (f & _ & Hshape).
  rewrite (recorded_shape_input f r Hshape). exact Hshape.
Qed.

End ResultShapes.

Lemma recorded_results_shape_witness :
  In demoReport (demoReports false false)
  /\ In demoBroken (Summary.results demoReport)
  /\ recorded_shape (demoWorld false) (FileResult.input demoBroken) demoBroken.
Proof.
  assert (Hb : In demoReport (demoReports false false)) by (left; reflexivity).
  assert (Hr : In demoBroken (Summary.results demoReport))
    by (right; left; reflexivity).
  repeat split; try assumption.
  exact (recorded_results_have_one_of_three_shapes (demoWorld false)
           (demoOptions false) tt demoReport demoBroken Hb Hr).
Defined.

Section NoErrorStatus.
Context {S Bytes Score : Type}.
Variable w : World S Bytes Score.

(** [processFile] around a catch block that does not throw on the
    values the try block can throw. *)
Lemma triple_processFile_total inDir outDir fileName options :
  throws_are_normalized w ->
  (forall atex e,
     message_obtained e ->
     triple (processFile_catch w outDir (path_join w inDir fileName) fileName
               (path_basename w fileName (path_extname w fileName) ++ ".atex")
               options atex e)
       (fun r => FileResult.status r <> error) (fun _ => False)
       (fun _ => True)) ->
  triple (processFile w inDir outDir fileName options)
    (fun r => FileResult.status r <> error) (fun _ => False) (fun _ => True).
Proof.
  intros (Hload & Hexport & Hinit & Hread) Hcatch. unfold processFile.
  eapply triple_bind with (P := fun _ => True).
  { destruct (Options.verbose options);
      [apply triple_emit | apply triple_ret]; exact I. }
  intros _ _.
  eapply triple_try_assign_on with (P := fun _ => True) (E := message_obtained).
  - unfold processFile_export.
    eapply triple_bind with (P := fun _ => True).
    { eapply triple_weaken; [apply triple_fs_query; exact I | auto |].
      intros e [msg ->]. apply message_obtained_node_error. }
    intros data _.
    eapply triple_bind with (P := fun _ => True).
    { apply triple_lift.
      destruct (loadScoreFromBytes w data) as [score | e] eqn:Hl;
        [exact I | exact (Hload data e Hl)]. }
    intros score _. apply triple_lift.
    destruct (exportToString w score) as [text | e] eqn:He;
      [exact I | exact (Hexport score e He)].
  - intros text _. unfold processFile_reimport.
    eapply triple_bind with (P := fun _ => True).
    { apply triple_lift.
      destruct (initFromString w text) as [u | e] eqn:Hi;
        [exact I | exact (Hinit text e Hi)]. }
    intros _ _.
    eapply triple_bind with (P := fun _ => True).
    { apply triple_lift.
      destruct (readScore w text) as [u | e] eqn:Hr;
        [exact I | exact (Hread text e Hr)]. }
    intros _ _. apply triple_ret. discriminate.
  - intros x e He. apply Hcatch, He.
Qed.

Lemma triple_processFile_catch_total outDir inputPath fileName atexName options atex e :
  Options.dryRun options = true
  \/ (forall dir s, fst (fs_mkdir w dir s) = None) ->
  message_obtained e ->
  triple (processFile_catch w outDir inputPath fileName atexName options atex e)
    (fun r => FileResult.status r <> error) (fun _ => False) (fun _ => True).
Proof.
  intros Hsafe Hobt.
  destruct (extractDiagnostics_obtained e Hobt) as [d Hd].
  destruct Hsafe as [Hdry | Hmkdir].
  - unfold processFile_catch. rewrite Hdry, Hd. cbn [negb].
    eapply triple_bind with (P := fun _ => True);
      [apply triple_lift; exact I |].
    intros d' _.
    eapply triple_bind with (P := fun _ => True);
      [apply triple_ret; exact I |].
    intros _ _. apply triple_ret. discriminate.
  - eapply triple_events_weaken with (V := not_report); [| auto].
    eapply triple_weaken;
      [exact (triple_processFile_catch_guarded w outDir inputPath fileName
                atexName options atex e d Hmkdir Hd) | | auto].
    intros r [d' ->]. discriminate.
Qed.

Lemma count_status_absent (st : Status) (results : list FileResult.t) :
  Forall (fun r => FileResult.status r <> st) results ->
  count_status st results = 0.
Proof.
  unfold count_status. induction 1 as [| r results Hr _ IH]; [reflexivity |].
  cbn. destruct (FileResult.status r), st; cbn; try exact IH; congruence.
Qed.

(** X8.  Where the alphaTab calls throw only values whose message the
    normalizer obtains (a truthy [message], or a value [String]
    converts), no file is recorded with status [error] in a dry run,
    nor in a run against a file system that never refuses to create a
    directory: every file is then [passed] or [failed] and the two
    counts add up to [totalFiles]. *)
Theorem error_status_needs_a_refused_directory
    (opts : Options.t) (s : S) (b : Summary.t) :
  throws_are_normalized w ->
  Options.dryRun opts = true
  \/ (forall dir s', fst (fs_mkdir w dir s') = None) ->
  In b (reports_of (events (main w opts s))) ->
  Forall (fun r => FileResult.status r <> error) (Summary.results b)
  /\ Summary.passed b + Summary.failed b = Summary.totalFiles b.
Proof.
  intros Hnorm Hsafe Hb.
  destruct (report_origin w opts s b Hb)
    as (s1 & files & s2 & st & s3 & evl & _ & _ & Hloop & ->).
  set (inDir := path_resolve w (Options.in_ opts)) in *.
  set (outDir := path_resolve w (Options.out opts)) in *.
  assert (H : triple (main_loop w inDir outDir opts
                        (List.length (filter is_gp5 files)) 0
                        (filter is_gp5 files) [] [])
                (fun st => exists new,
                     fst st = ([] ++ new)%list
                     /\ Forall2 (fun _ r => FileResult.status r <> error)
                          (filter is_gp5 files) new)
                (fun _ => False) (fun _ => True)).
  { apply triple_main_loop_for. intros i fileName results logLines.
    apply triple_main_step_for with (Ep := fun _ => False).
    - auto.
    - apply triple_processFile_total; [exact Hnorm |]. intros atex e He.
      apply triple_processFile_catch_total; [exact Hsafe | exact He].
    - intros e []. }
  destruct (H s2) as [_ Hout]. rewrite Hloop in Hout. cbn in Hout.
  destruct Hout as (new & -> & Hall).
  assert (Hno : Forall (fun r => FileResult.status r <> error) new).
  { clear - Hall. induction Hall; constructor; assumption. }
  split; [exact Hno |].
  unfold summary_of.
  cbn [Summary.passed Summary.failed Summary.totalFiles Summary.results].
  pose proof (count_status_partition new) as Hpart.
  rewrite (count_status_absent error new Hno) in Hpart.
  rewrite (Forall2_length_eq _ _ _ Hall). lia.
Qed.

End NoErrorStatus.

Lemma demoWorld_throws_are_normalized (blocked : bool) :
  throws_are_normalized (demoWorld blocked).
Proof.
  unfold throws_are_normalized. cbn.
  repeat split; intros x e;
    repeat match goal with
           | |- context [String.eqb ?a ?b] => destruct (String.eqb a b)
           end;
    intros H; try discriminate H; injection H as <-; left; reflexivity.
Qed.

Lemma error_status_needs_a_refused_directory_witness :
  throws_are_normalized (demoWorld true)
  /\ (Options.dryRun (demoOptions true) = true
      \/ (forall dir s', fst (fs_mkdir (demoWorld true) dir s') = None))
  /\ In (hd emptySummary (demoReports true true)) (demoReports true true)
  /\ Forall (fun r => FileResult.status r <> error)
       (Summary.results (hd emptySummary (demoReports true true)))
  /\ Summary.passed (hd emptySummary (demoReports true true))
     + Summary.failed (hd emptySummary (demoReports true true))
     = Summary.totalFiles (hd emptySummary (demoReports true true)).
Proof.
  assert (Hsafe : Options.dryRun (demoOptions true) = true
                  \/ (forall dir s', fst (fs_mkdir (demoWorld true) dir s') = None))
    by (left; reflexivity).
  assert (Hb : In (hd emptySummary (demoReports true true)) (demoReports true true))
    by (left; reflexivity).
  split; [exact (demoWorld_throws_are_normalized true) |].
  split; [exact Hsafe |]. split; [exact Hb |].
  exact (error_status_needs_a_refused_directory (demoWorld true)
           (demoOptions true) tt _ (demoWorld_throws_are_normalized true)
           Hsafe Hb).
Defined.

Section WholeRun.
Context {S Bytes Score : Type}.
Variable w : World S Bytes Score.

(** X9.  When the output directory cannot be created, or the input
    directory cannot be listed, [main] rejects with the error of that
    call, and has done nothing but print its three opening lines and
    make the calls up to the refused one: no input is read, nothing is
    copied or written. *)
Theorem main_stops_when_setup_fails (opts : Options.t) (s : S) :
  let inDir := path_resolve w (Options.in_ opts) in
  let outDir := path_resolve w (Options.out opts) in
  match fs_mkdir w outDir s with
  | (Some msg, s1) =>
      main w opts s
      = (Throw (node_error msg), s1, (main_banner w opts ++ [EvMkdir outDir])%list)
  | (None, s1) =>
      match fs_readdir w inDir s1 with
      | (inr msg, s2) =>
          main w opts s
          = (Throw (node_error msg), s2,
             (main_banner w opts ++ [EvMkdir outDir; EvReaddir inDir])%list)
      | (inl _, _) => In (EvReaddir inDir) (events (main w opts s))
      end
  end.
Proof.
  intros inDir outDir. pose proof (main_unfold w opts s) as H. cbv zeta in H.
  fold inDir outDir in H.
  destruct (fs_mkdir w outDir s) as [[msg |] s1]; [exact H |].
  destruct (fs_readdir w inDir s1) as [[files | msg] s2].
  2: { rewrite H, <- app_assoc. reflexivity. }
  destruct (main_loop w inDir outDir opts _ 0 _ [] [] s2) as [[[st | e] s3] evl].
  2: { rewrite H. unfold events. cbn [snd]. rewrite !in_app_iff. cbn. auto. }
  destruct (fs_writeFile w _ (CReport _) s3) as [[msg |] s4].
  { rewrite H. unfold events. cbn [snd]. rewrite !in_app_iff. cbn. auto. }
  destruct (fs_writeFile w _ (CText _) s4) as [[msg |] s5];
    rewrite H; unfold events; cbn [snd]; rewrite !in_app_iff; cbn; auto.
Qed.

(** X10.  The outcome of [main]: it rejects with the error of the
    first refused call among the creation of the output directory, the
    listing, the write of the report and the write of the log, and
    completes when none is refused.  The loop between the listing and
    the report always returns: no file makes [main] reject. *)
Theorem main_rejects_only_on_setup_or_report (opts : Options.t) (s : S) :
  let inDir := path_resolve w (Options.in_ opts) in
  let outDir := path_resolve w (Options.out opts) in
  match fs_mkdir w outDir s with
  | (Some msg, _) => outcome (main w opts s) = Throw (node_error msg)
  | (None, s1) =>
      match fs_readdir w inDir s1 with
      | (inr msg, _) => outcome (main w opts s) = Throw (node_error msg)
      | (inl files, s2) =>
          exists st s3 evl,
            main_loop w inDir outDir opts (List.length (filter is_gp5 files)) 0
              (filter is_gp5 files) [] [] s2 = (Ok st, s3, evl)
            /\ match fs_writeFile w (path_join w outDir "report.json")
                       (CReport (summary_of w opts (toISOString w s3) files (fst st)))
                       s3 with
               | (Some msg, _) => outcome (main w opts s) = Throw (node_error msg)
               | (None, s4) =>
                   match fs_writeFile w (path_join w outDir "log.txt")
                           (CText (VStr (join newline (snd st)))) s4 with
                   | (Some msg, _) =>
                       outcome (main w opts s) = Throw (node_error msg)
                   | (None, _) => outcome (main w opts s) = Ok tt
                   end
               end
      end
  end.
Proof.
  intros inDir outDir. pose proof (main_unfold w opts s) as H. cbv zeta in H.
  fold inDir outDir in H.
  destruct (fs_mkdir w outDir s) as [[msg |] s1]; [rewrite H; reflexivity |].
  destruct (fs_readdir w inDir s1) as [[files | msg] s2];
    [| rewrite H; reflexivity].
  destruct (main_loop_total w inDir outDir opts
              (List.length (filter is_gp5 files)) 0 (filter is_gp5 files)
              [] [] s2) as [st Hst].
  destruct (main_loop w inDir outDir opts _ 0 _ [] [] s2)
    as [[[st' | e] s3] evl]; [| discriminate Hst].
  exists st', s3, evl. split; [reflexivity |].
  destruct (fs_writeFile w _ (CReport _) s3) as [[msg |] s4];
    [rewrite H; reflexivity |].
  destruct (fs_writeFile w _ (CText _) s4) as [[msg |] s5];
    rewrite H; reflexivity.
Qed.

(** X11.  The whole footprint of a dry run: besides reading inputs
    and printing, [main] creates the output directory, lists the input
    directory, and writes the report and the log; it creates no other
    directory, copies nothing and writes no other file. *)
Theorem dry_run_footprint (opts : Options.t) (s : S) :
  Options.dryRun opts = true ->
  let inDir := path_resolve w (Options.in_ opts) in
  let outDir := path_resolve w (Options.out opts) in
  Forall
    (fun ev =>
       quiet ev \/ ev = EvMkdir outDir \/ ev = EvReaddir inDir
       \/ (exists b, ev = EvWriteFile (path_join w outDir "report.json") (CReport b))
       \/ (exists t, ev = EvWriteFile (path_join w outDir "log.txt") (CText (VStr t))))
    (events (main w opts s)).
Proof.
  intros Hdry inDir outDir.
  pose proof (main_unfold w opts s) as H. cbv zeta in H. fold inDir outDir in H.
  assert (Hquiet : forall evs, Forall quiet evs ->
            Forall (fun ev =>
               quiet ev \/ ev = EvMkdir outDir \/ ev = EvReaddir inDir
               \/ (exists b, ev = EvWriteFile (path_join w outDir "report.json") (CReport b))
               \/ (exists t, ev = EvWriteFile (path_join w outDir "log.txt") (CText (VStr t))))
              evs).
  { intros evs Hq. eapply Forall_impl; [| exact Hq]. auto. }
  assert (Hbanner : Forall quiet (main_banner w opts)) by (repeat constructor).
  assert (Hfooter : forall b, Forall quiet (main_footer w opts b)).
  { intros b. unfold main_footer. destruct (Options.verbose opts); repeat constructor. }
  assert (Hhead : Forall
            (fun ev =>
               quiet ev \/ ev = EvMkdir outDir \/ ev = EvReaddir inDir
               \/ (exists b, ev = EvWriteFile (path_join w outDir "report.json") (CReport b))
               \/ (exists t, ev = EvWriteFile (path_join w outDir "log.txt") (CText (VStr t))))
            (main_banner w opts ++ [EvMkdir outDir])%list).
  { apply Forall_app. split; [apply Hquiet, Hbanner |].
    apply Forall_cons; [auto | apply Forall_nil]. }
  destruct (fs_mkdir w outDir s) as [[msg |] s1].
  { rewrite H. exact Hhead. }
  destruct (fs_readdir w inDir s1) as [[files | msg] s2].
  2: { rewrite H. unfold events. cbn [snd].
       apply Forall_app. split; [exact Hhead |].
       apply Forall_cons; [auto | apply Forall_nil]. }
  pose proof (dry_run_loop_is_quiet w inDir outDir opts
                (List.length (filter is_gp5 files)) (filter is_gp5 files)
                Hdry 0 [] [] s2) as Hloop.
  destruct (main_loop w inDir outDir opts _ 0 _ [] [] s2) as [[[st | e] s3] evl];
    unfold events in Hloop; cbn [snd] in Hloop.
  2: { rewrite H. unfold events. cbn [snd].
       apply Forall_app. split; [exact Hhead |].
       apply Forall_cons; [auto |]. apply Hquiet, Hloop. }
  destruct (fs_writeFile w _ (CReport _) s3) as [[msg |] s4].
  { rewrite H. unfold events. cbn [snd].
    apply Forall_app. split; [exact Hhead |].
    apply Forall_cons; [auto |].
    apply Forall_app. split; [apply Hquiet, Hloop |].
    apply Forall_cons; [eauto 6 | apply Forall_nil]. }
  destruct (fs_writeFile w _ (CText _) s4) as [[msg |] s5].
  { rewrite H. unfold events. cbn [snd].
    apply Forall_app. split; [exact Hhead |].
    apply Forall_cons; [auto |].
    apply Forall_app. split; [apply Hquiet, Hloop |].
    apply Forall_cons; [eauto 6 |].
    apply Forall_cons; [eauto 6 | apply Forall_nil]. }
  rewrite H. unfold events. cbn [snd].
  apply Forall_app. split; [exact Hhead |].
  apply Forall_cons; [auto |].
  apply Forall_app. split; [apply Hquiet, Hloop |].
  apply Forall_cons; [eauto 6 |].
  apply Forall_cons; [eauto 6 |].
  apply Hquiet, Hfooter.
Qed.

End WholeRun.

Lemma dry_run_footprint_witness :
  Options.dryRun (demoOptions true) = true
  /\ Forall
       (fun ev =>
          quiet ev \/ ev = EvMkdir "/repo/data/error"
          \/ ev = EvReaddir "/repo/data/raw"
          \/ (exists b, ev = EvWriteFile "/repo/data/error/report.json" (CReport b))
          \/ (exists t, ev = EvWriteFile "/repo/data/error/log.txt" (CText (VStr t))))
       (events (main (demoWorld true) (demoOptions true) tt)).
Proof.
  split; [reflexivity |].
  exact (dry_run_footprint (demoWorld true) (demoOptions true) tt eq_refl).
Defined.

Ltac find_disjunct :=
  match goal with
  | |- _ \/ _ => (left; find_disjunct) || (right; find_disjunct)
  | |- ?x = ?x => reflexivity
  end.

Section Artifacts.
Context {S Bytes Score : Type}.
Variable w : World S Bytes Score.

(** X12.  What a full run keeps of a file whose export succeeded and
    whose re-import threw a value whose message the normalizer obtains
    (a truthy [message], or a value [String] converts): where
    directories can be created, the input is copied to
    [failed_gp5/<fileName>] and the exported text, the very text the
    importer was given, is written to [fail_atex/<base>.atex], both
    under the output directory; the result is [failed] with the
    normalized exception, whether or not the copy and the write are
    refused. *)
Theorem failing_file_artifacts
    (inDir outDir fileName : string) (options : Options.t) (s s1 : S)
    (data : Bytes) (score : Score) (text : string) (e : value) :
  let inputPath := path_join w inDir fileName in
  let atexName :=
    (path_basename w fileName (path_extname w fileName) ++ ".atex")%string in
  Options.dryRun options = false ->
  (forall dir s', fst (fs_mkdir w dir s') = None) ->
  fs_readFile w inputPath s = (inl data, s1) ->
  loadScoreFromBytes w data = Ok score ->
  exportToString w score = Ok text ->
  outcome (processFile_reimport w fileName atexName text s1) = Throw e ->
  message_obtained e ->
  let run := processFile w inDir outDir fileName options s in
  In (EvCopyFile inputPath
        (path_join w (path_join w outDir "failed_gp5") fileName)) (events run)
  /\ In (EvWriteFile (path_join w (path_join w outDir "fail_atex") atexName)
           (CText (VStr text))) (events run)
  /\ exists d,
       extractDiagnostics e = Ok d
       /\ outcome run = Ok (failedResult fileName atexName (diagnosticsTotal d) d).
Proof.
  intros inputPath atexName Hdry Hmkdir Hread Hload Hexport Hre Hobt run.
  destruct (extractDiagnostics_obtained e Hobt) as [d Hd].
  assert (Hrun : forall k : M S FileResult.t,
             bind (if Options.verbose options
                   then console_log [VStr ("Processing: " ++ fileName)]
                   else ret tt) (fun _ => k) s
             = match k s with
               | (r, s2, ev2) =>
                   (r, s2,
                    ((if Options.verbose options
                      then [EvConsoleLog [VStr ("Processing: " ++ fileName)]]
                      else []) ++ ev2)%list)
               end).
  { intros k. unfold bind. destruct (Options.verbose options); reflexivity. }
  assert (Haux : exists s' evs,
             run = (Ok (failedResult fileName atexName (diagnosticsTotal d) d),
                    s', evs)
             /\ In (EvCopyFile inputPath
                      (path_join w (path_join w outDir "failed_gp5") fileName)) evs
             /\ In (EvWriteFile (path_join w (path_join w outDir "fail_atex") atexName)
                      (CText (VStr text))) evs).
  { subst run. unfold processFile. fold inputPath atexName. rewrite Hrun.
    unfold try_assign, processFile_export, readFile, fs_query, bind at 1 2, lift.
    rewrite Hread, Hload, Hexport.
    unfold try_catch at 1.
    destruct (processFile_reimport w fileName atexName text s1)
      as [[[r | e'] s2] ev2] eqn:Hrun2; cbn in Hre; [discriminate Hre |].
    injection Hre as ->.
    assert (Hs2 : s2 = s1 /\ ev2 = []).
    { unfold processFile_reimport, bind, lift, ret in Hrun2.
      destruct (initFromString w text); [destruct (readScore w text) |];
        injection Hrun2 as _ <- <-; auto. }
    destruct Hs2 as [-> ->].
    unfold processFile_catch, bind, lift, try_catch, copyFile, ensureDir,
      writeFile, fs_call, console_error, emit, ret.
    unfold bind. rewrite Hd, Hdry. cbn [negb]. rewrite !length_or_0_length.
    repeat (cbn [js_get node_error lookup String.eqb Ascii.eqb Bool.eqb];
            cbv beta iota;
            match goal with
            | |- context [fs_mkdir w ?dir ?st] =>
                let Hm := fresh "Hm" in
                pose proof (Hmkdir dir st) as Hm;
                destruct (fs_mkdir w dir st) as [[? |] ?];
                [discriminate Hm | clear Hm]
            | |- context [fs_copyFile w ?a ?b ?st] =>
                destruct (fs_copyFile w a b st) as [[? |] ?]
            | |- context [fs_writeFile w ?a ?b ?st] =>
                destruct (fs_writeFile w a b st) as [[? |] ?]
            end);
      cbn [js_get node_error lookup String.eqb Ascii.eqb Bool.eqb rbind];
      cbv beta iota;
      (eexists; eexists; split; [reflexivity |]);
      split; rewrite ?in_app_iff; cbn; find_disjunct. }
  destruct Haux as (s' & evs & Heq & Hcopy & Hwrite).
  rewrite Heq. split; [exact Hcopy |]. split; [exact Hwrite |].
  exists d. split; [exact Hd | reflexivity].
Qed.

End Artifacts.

Lemma failing_file_artifacts_witness :
  Options.dryRun (demoOptions false) = false
  /\ (forall dir s', fst (fs_mkdir (demoWorld false) dir s') = None)
  /\ message_obtained semanticFailure
  /\ In (EvCopyFile "/repo/data/raw/Broken.GP5"
           "/repo/data/error/failed_gp5/Broken.GP5")
       (events (processFile (demoWorld false) "/repo/data/raw"
                  "/repo/data/error" "Broken.GP5" (demoOptions false) tt))
  /\ In (EvWriteFile "/repo/data/error/fail_atex/Broken.atex"
           (CText (VStr "\title BROKEN")))
       (events (processFile (demoWorld false) "/repo/data/raw"
                  "/repo/data/error" "Broken.GP5" (demoOptions false) tt))
  /\ exists d,
       extractDiagnostics semanticFailure = Ok d
       /\ outcome (processFile (demoWorld false) "/repo/data/raw"
                     "/repo/data/error" "Broken.GP5" (demoOptions false) tt)
          = Ok (failedResult "Broken.GP5" "Broken.atex" (diagnosticsTotal d) d).
Proof.
  assert (Hmkdir : forall dir s', fst (fs_mkdir (demoWorld false) dir s') = None)
    by (intros dir s'; reflexivity).
  assert (Hobt : message_obtained semanticFailure) by (left; reflexivity).
  split; [reflexivity |]. split; [exact Hmkdir |]. split; [exact Hobt |].
  exact (failing_file_artifacts (demoWorld false) "/repo/data/raw"
           "/repo/data/error" "Broken.GP5" (demoOptions false) tt tt
           "BROKEN" "BROKEN" "\title BROKEN" semanticFailure
           eq_refl Hmkdir eq_refl eq_refl eq_refl eq_refl Hobt).
Defined.

(** ** Progress on standard output *)

Lemma stdout_writes_app (a b : list event) :
  stdout_writes (a ++ b) = (stdout_writes a ++ stdout_writes b)%list.
Proof.
  induction a as [| ev a IH]; [reflexivity |].
  destruct ev; cbn; rewrite ?IH; reflexivity.
Qed.

Lemma stdout_writes_file_events (evs : list event) :
  Forall file_event evs -> stdout_writes evs = [].
Proof.
  induction 1 as [| ev evs Hev _ IH]; [reflexivity |].
  destruct ev; cbn in Hev |- *; try exact IH. destruct Hev.
Qed.

Section Progress.
Context {S Bytes Score : Type}.
Variable w : World S Bytes Score.

Lemma triple_file_call (ev : event) (f : S -> option string * S) :
  file_event ev -> triple (fs_call ev f) (fun _ => True) is_node_error file_event.
Proof.
  intros Hv s. unfold fs_call.
  destruct (f s) as [[msg |] s']; cbn;
    (split; [repeat constructor; exact Hv |]); [exists msg; reflexivity | exact I].
Qed.

Lemma triple_file_guarded (m : M S unit) (label : string) :
  triple m (fun _ => True) is_node_error file_event ->
  triple
    (try_catch m
       (fun e => bind (lift (js_get e "message"))
                   (fun msg => console_error [VStr label; msg])))
    (fun _ => True) is_node_error file_event.
Proof.
  intros Hm. eapply triple_try_catch; [exact Hm |].
  intros e [msg ->].
  eapply triple_bind with (P := fun _ => True).
  - apply triple_lift. rewrite js_get_node_error_message. exact I.
  - intros a _. apply triple_emit; exact I.
Qed.

(** [processFile] only prints to the console, reads, creates
    directories, copies and writes text. *)
Lemma triple_processFile_events inDir outDir fileName options :
  triple (processFile w inDir outDir fileName options)
    (fun _ => True) is_rejection file_event.
Proof.
  unfold processFile.
  eapply triple_bind with (P := fun _ => True).
  { destruct (Options.verbose options);
      [apply triple_emit | apply triple_ret]; exact I. }
  intros _ _.
  eapply triple_try_assign with (P := fun _ => True) (E := fun _ => True).
  - unfold processFile_export.
    eapply triple_bind with (P := fun _ => True).
    { intros s. unfold readFile, fs_query.
      destruct (fs_readFile w (path_join w inDir fileName) s) as [[a | msg] s'];
        split; repeat constructor. }
    intros data _.
    eapply triple_bind with (P := fun _ => True).
    { apply triple_lift. destruct (loadScoreFromBytes w data); exact I. }
    intros score _. apply triple_lift.
    destruct (exportToString w score); exact I.
  - intros text _. unfold processFile_reimport.
    eapply triple_bind with (P := fun _ => True).
    { apply triple_lift. destruct (initFromString w text); exact I. }
    intros _ _.
    eapply triple_bind with (P := fun _ => True).
    { apply triple_lift. destruct (readScore w text); exact I. }
    intros _ _. apply triple_ret. exact I.
  - intros x e. unfold processFile_catch.
    eapply triple_bind with (P := fun _ => True).
    { eapply triple_weaken; [apply triple_normalize | auto |].
      intros e' ->. right. reflexivity. }
    intros d' _.
    eapply triple_bind with (P := fun _ => True);
      [| intros; apply triple_ret; exact I].
    eapply triple_weaken with (Q := fun _ => True) (E := is_node_error);
      [| auto | exact node_error_is_rejection].
    destruct (Options.dryRun options); cbn [negb];
      [apply triple_ret; exact I |].
    eapply triple_bind with (P := fun _ => True);
      [apply triple_file_call; exact I |].
    intros _ _.
    eapply triple_bind with (P := fun _ => True).
    { apply triple_file_guarded. unfold copyFile.
      eapply triple_bind with (P := fun _ => True);
        [apply triple_file_call; exact I |].
      intros _ _. apply triple_file_call. exact I. }
    intros _ _.
    eapply triple_bind with (P := fun _ => True);
      [apply triple_file_call; exact I |].
    intros _ _. apply triple_file_guarded, triple_file_call. exact I.
Qed.

Lemma main_step_progress inDir outDir opts total i fileName results logLines (s : S) :
  exists st s' evs,
    main_step w inDir outDir opts total i fileName results logLines s
    = (Ok st, s', EvStdout (progress total i fileName) :: evs)
    /\ stdout_writes evs = [].
Proof.
  unfold main_step. unfold bind at 1. unfold stdout_write, emit.
  match goal with
  | |- context [try_catch ?m ?h] => set (T := try_catch m h)
  end.
  assert (HT : triple T (fun _ => True) (fun _ => False) file_event).
  { subst T. eapply triple_try_catch with (E := is_rejection).
    - eapply triple_bind; [apply triple_processFile_events |].
      intros res _. cbn zeta.
      destruct (Status_eqb (FileResult.status res) passed);
        (eapply triple_bind with (P := fun _ => True);
         [apply triple_emit; exact I | intros; apply triple_ret; exact I]).
    - intros e He. destruct (rejection_message e He) as [msg Hmsg].
      eapply triple_bind with (P := fun m => m = VStr msg).
      { apply triple_lift. rewrite Hmsg. reflexivity. }
      intros m ->.
      eapply triple_bind with (P := fun _ => True);
        [apply triple_emit; exact I | intros; apply triple_ret; exact I]. }
  destruct (HT s) as [Hev Hout].
  destruct (T s) as [[[st | e] s'] evs]; [| destruct Hout].
  exists st, s', evs. split; [reflexivity |].
  apply stdout_writes_file_events, Hev.
Qed.

Lemma main_loop_progress inDir outDir opts total rest :
  forall i results logLines (s : S),
    stdout_writes (events (main_loop w inDir outDir opts total i rest results logLines s))
    = progress_from total i rest.
Proof.
  induction rest as [| fileName rest IH]; intros i results logLines s;
    [reflexivity |].
  cbn [main_loop progress_from]. unfold bind.
  destruct (main_step_progress inDir outDir opts total i fileName results
              logLines s) as (st & s' & evs & -> & Hevs).
  specialize (IH (i + 1) (fst st) (snd st) s').
  destruct (main_loop w inDir outDir opts total (i + 1) rest (fst st) (snd st) s')
    as [[r s''] ev2].
  unfold events in IH |- *. cbn [snd] in IH |- *.
  rewrite stdout_writes_app. cbn [stdout_writes]. rewrite Hevs, IH. reflexivity.
Qed.

(** X13.  The calls of [process.stdout.write] that [main] makes: none
    when the output directory cannot be created or the input directory
    cannot be listed, and otherwise one per file that passes the
    filter, in listing order, with the text "[k/n] name ... ", k
    counting from 1 and n the number of such files.  (The lines of
    [console.log], which reach standard output too, are not among
    them.) *)
Theorem main_prints_progress_per_file (opts : Options.t) (s : S) :
  match fs_mkdir w (path_resolve w (Options.out opts)) s with
  | (Some _, _) => stdout_writes (events (main w opts s)) = []
  | (None, s1) =>
      match fs_readdir w (path_resolve w (Options.in_ opts)) s1 with
      | (inr _, _) => stdout_writes (events (main w opts s)) = []
      | (inl files, _) =>
          stdout_writes (events (main w opts s))
          = progress_from (List.length (filter is_gp5 files)) 0
              (filter is_gp5 files)
      end
  end.
Proof.
  pose proof (main_unfold w opts s) as H. cbv zeta in H.
  assert (Hfooter : forall b, stdout_writes (main_footer w opts b) = []).
  { intros b. unfold main_footer. destruct (Options.verbose opts); reflexivity. }
  destruct (fs_mkdir w (path_resolve w (Options.out opts)) s) as [[msg |] s1];
    [rewrite H; reflexivity |].
  destruct (fs_readdir w (path_resolve w (Options.in_ opts)) s1)
    as [[files | msg] s2]; [| rewrite H; reflexivity].
  pose proof (main_loop_progress (path_resolve w (Options.in_ opts))
                (path_resolve w (Options.out opts)) opts
                (List.length (filter is_gp5 files)) (filter is_gp5 files)
                0 [] [] s2) as Hloop.
  destruct (main_loop w _ _ opts _ 0 _ [] [] s2) as [[[st | e] s3] evl];
    unfold events in Hloop; cbn [snd] in Hloop.
  2: { rewrite H. unfold events. cbn [snd].
       rewrite !stdout_writes_app, Hloop. reflexivity. }
  destruct (fs_writeFile w _ (CReport _) s3) as [[msg |] s4].
  { rewrite H. unfold events. cbn [snd].
    rewrite !stdout_writes_app, Hloop. cbn. apply app_nil_r. }
  destruct (fs_writeFile w _ (CText _) s4) as [[msg |] s5];
    rewrite H; unfold events; cbn [snd];
    rewrite !stdout_writes_app, Hloop, ?Hfooter; cbn; apply app_nil_r.
Qed.

End Progress.

(** ** The command line *)

Lemma list_pair_ind {A} (P : list A -> Prop) :
  P [] -> (forall a, P [a]) ->
  (forall a b l, P l -> P (b :: l) -> P (a :: b :: l)) ->
  forall l, P l.
Proof.
  intros Hnil Hone Hstep.
  assert (H : forall l, P l /\ forall a, P (a :: l)).
  { induction l as [| b l [IH1 IH2]].
    - split; [exact Hnil | exact Hone].
    - split; [apply IH2 |]. intros a. apply Hstep; [exact IH1 | apply IH2]. }
  intros l. apply H.
Qed.

Lemma dangling_cons (a : string) (args : list string) (flag alias : string) :
  dangling args flag alias -> dangling (a :: args) flag alias.
Proof. intros (pre & f & -> & Hf). exists (a :: pre), f. auto. Qed.

Lemma parseArgs_loop_cons (a : string) (rest : list string) (opts : RawOptions.t) :
  parseArgs_loop (a :: rest) opts =

      if String.eqb a "--in" || String.eqb a "--input" then
        match rest with
        | v :: rest' =>
            parseArgs_loop rest'
              (RawOptions.mk (Some v) (RawOptions.out opts)
                 (RawOptions.dryRun opts) (RawOptions.verbose opts))
        | [] =>
            (Parsed (RawOptions.mk None (RawOptions.out opts)
                       (RawOptions.dryRun opts) (RawOptions.verbose opts)), [])
        end
      else if String.eqb a "--out" || String.eqb a "--output" then
        match rest with
        | v :: rest' =>
            parseArgs_loop rest'
              (RawOptions.mk (RawOptions.in_ opts) (Some v)
                 (RawOptions.dryRun opts) (RawOptions.verbose opts))
        | [] =>
            (Parsed (RawOptions.mk (RawOptions.in_ opts) None
                       (RawOptions.dryRun opts) (RawOptions.verbose opts)), [])
        end
      else if String.eqb a "--dry-run" then
        parseArgs_loop rest
          (RawOptions.mk (RawOptions.in_ opts) (RawOptions.out opts)
             true (RawOptions.verbose opts))
      else if String.eqb a "--verbose" then
        parseArgs_loop rest
          (RawOptions.mk (RawOptions.in_ opts) (RawOptions.out opts)
             (RawOptions.dryRun opts) true)
      else if String.eqb a "--help" || String.eqb a "-h" then
        (Exited 0, [EvConsoleLog [VStr usage]])
      else
        match parseArgs_loop rest opts with
        | (r, evs) => (r, EvConsoleError [VStr "Unknown arg:"; VStr a] :: evs)
        end.
Proof. reflexivity. Qed.

(** The loop of [parseArgs] from any [opts]: what it can have turned
    on, when it can have left, and when a directory can be undefined. *)
Lemma parseArgs_loop_sound (args : list string) :
  forall o0,
    match fst (parseArgs_loop args o0) with
    | Parsed opts =>
        (RawOptions.dryRun opts = true ->
         RawOptions.dryRun o0 = true \/ In "--dry-run" args)
        /\ (RawOptions.verbose opts = true ->
            RawOptions.verbose o0 = true \/ In "--verbose" args)
        /\ match RawOptions.in_ opts with
           | None => RawOptions.in_ o0 = None \/ dangling args "--in" "--input"
           | Some _ => True
           end
        /\ match RawOptions.out opts with
           | None => RawOptions.out o0 = None \/ dangling args "--out" "--output"
           | Some _ => True
           end
    | Exited code => code = 0%Z /\ (In "--help" args \/ In "-h" args)
    end.
Proof.
  induction args as [| a | a b l IHl IHbl] using list_pair_ind; intros o0.
  - cbn. repeat split; auto.
    + destruct (RawOptions.in_ o0); auto.
    + destruct (RawOptions.out o0); auto.
  - rewrite parseArgs_loop_cons. cbv beta iota.
    destruct (String.eqb a "--in" || String.eqb a "--input") eqn:Hin.
    { cbn. repeat split; auto.
      - right. exists [], a. split; [reflexivity |].
        apply orb_true_iff in Hin. rewrite !String.eqb_eq in Hin. exact Hin.
      - destruct (RawOptions.out o0); auto. }
    destruct (String.eqb a "--out" || String.eqb a "--output") eqn:Hout.
    { cbn. repeat split; auto.
      - destruct (RawOptions.in_ o0); auto.
      - right. exists [], a. split; [reflexivity |].
        apply orb_true_iff in Hout. rewrite !String.eqb_eq in Hout. exact Hout. }
    destruct (String.eqb a "--dry-run") eqn:Hdry.
    { apply String.eqb_eq in Hdry. subst a. cbn. repeat split; auto.
      - destruct (RawOptions.in_ o0); auto.
      - destruct (RawOptions.out o0); auto. }
    destruct (String.eqb a "--verbose") eqn:Hverb.
    { apply String.eqb_eq in Hverb. subst a. cbn. repeat split; auto.
      - destruct (RawOptions.in_ o0); auto.
      - destruct (RawOptions.out o0); auto. }
    destruct (String.eqb a "--help" || String.eqb a "-h") eqn:Hhelp.
    { cbn. split; [reflexivity |].
      apply orb_true_iff in Hhelp. rewrite !String.eqb_eq in Hhelp.
      destruct Hhelp as [-> | ->]; auto. }
    cbn. repeat split; auto.
    + destruct (RawOptions.in_ o0); auto.
    + destruct (RawOptions.out o0); auto.
  - rewrite parseArgs_loop_cons. cbv beta iota.
    destruct (String.eqb a "--in" || String.eqb a "--input") eqn:Hin.
    { specialize (IHl (RawOptions.mk (Some b) (RawOptions.out o0)
                         (RawOptions.dryRun o0) (RawOptions.verbose o0))).
      destruct (fst (parseArgs_loop l _)) as [opts | code].
      - destruct IHl as (Hd & Hv & Hi & Ho). cbn in Hd, Hv, Hi, Ho.
        split; [| split; [| split]].
        + intros H. destruct (Hd H); cbn; auto.
        + intros H. destruct (Hv H); cbn; auto.
        + destruct (RawOptions.in_ opts); [exact I |].
          destruct Hi as [Hi | Hi]; [discriminate Hi |].
          right. apply dangling_cons, dangling_cons, Hi.
        + destruct (RawOptions.out opts); [exact I |].
          destruct Ho as [Ho | Ho]; [left; exact Ho |].
          right. apply dangling_cons, dangling_cons, Ho.
      - destruct IHl as [Hc Hh]. split; [exact Hc |].
        destruct Hh; cbn; auto. }
    destruct (String.eqb a "--out" || String.eqb a "--output") eqn:Hout.
    { specialize (IHl (RawOptions.mk (RawOptions.in_ o0) (Some b)
                         (RawOptions.dryRun o0) (RawOptions.verbose o0))).
      destruct (fst (parseArgs_loop l _)) as [opts | code].
      - destruct IHl as (Hd & Hv & Hi & Ho). cbn in Hd, Hv, Hi, Ho.
        split; [| split; [| split]].
        + intros H. destruct (Hd H); cbn; auto.
        + intros H. destruct (Hv H); cbn; auto.
        + destruct (RawOptions.in_ opts); [exact I |].
          destruct Hi as [Hi | Hi]; [left; exact Hi |].
          right. apply dangling_cons, dangling_cons, Hi.
        + destruct (RawOptions.out opts); [exact I |].
          destruct Ho as [Ho | Ho]; [discriminate Ho |].
          right. apply dangling_cons, dangling_cons, Ho.
      - destruct IHl as [Hc Hh]. split; [exact Hc |].
        destruct Hh; cbn; auto. }
    destruct (String.eqb a "--dry-run") eqn:Hdry.
    { apply String.eqb_eq in Hdry. subst a.
      specialize (IHbl (RawOptions.mk (RawOptions.in_ o0) (RawOptions.out o0)
                          true (RawOptions.verbose o0))).
      destruct (fst (parseArgs_loop (b :: l) _)) as [opts | code].
      - destruct IHbl as (Hd & Hv & Hi & Ho). cbn in Hd, Hv, Hi, Ho.
        split; [| split; [| split]].
        + intros _. right. left. reflexivity.
        + intros H. destruct (Hv H) as [Hv' | Hv']; [left | right; right]; exact Hv'.
        + destruct (RawOptions.in_ opts); [exact I |].
          destruct Hi as [Hi | Hi]; [left; exact Hi |].
          right. apply dangling_cons, Hi.
        + destruct (RawOptions.out opts); [exact I |].
          destruct Ho as [Ho | Ho]; [left; exact Ho |].
          right. apply dangling_cons, Ho.
      - destruct IHbl as [Hc Hh]. split; [exact Hc |].
        destruct Hh as [Hh | Hh]; [left | right]; right; exact Hh. }
    destruct (String.eqb a "--verbose") eqn:Hverb.
    { apply String.eqb_eq in Hverb. subst a.
      specialize (IHbl (RawOptions.mk (RawOptions.in_ o0) (RawOptions.out o0)
                          (RawOptions.dryRun o0) true)).
      destruct (fst (parseArgs_loop (b :: l) _)) as [opts | code].
      - destruct IHbl as (Hd & Hv & Hi & Ho). cbn in Hd, Hv, Hi, Ho.
        split; [| split; [| split]].
        + intros H. destruct (Hd H) as [Hd' | Hd']; [left | right; right]; exact Hd'.
        + intros _. right. left. reflexivity.
        + destruct (RawOptions.in_ opts); [exact I |].
          destruct Hi as [Hi | Hi]; [left; exact Hi |].
          right. apply dangling_cons, Hi.
        + destruct (RawOptions.out opts); [exact I |].
          destruct Ho as [Ho | Ho]; [left; exact Ho |].
          right. apply dangling_cons, Ho.
      - destruct IHbl as [Hc Hh]. split; [exact Hc |].
        destruct Hh as [Hh | Hh]; [left | right]; right; exact Hh. }
    destruct (String.eqb a "--help" || String.eqb a "-h") eqn:Hhelp.
    { cbn. split; [reflexivity |].
      apply orb_true_iff in Hhelp. rewrite !String.eqb_eq in Hhelp.
      destruct Hhelp as [-> | ->]; auto. }
    specialize (IHbl o0).
    destruct (parseArgs_loop (b :: l) o0) as [[opts | code] evs];
      cbn [fst] in IHbl |- *.
    + destruct IHbl as (Hd & Hv & Hi & Ho).
      split; [| split; [| split]].
      * intros H. destruct (Hd H) as [Hd' | Hd']; [left | right; right]; exact Hd'.
      * intros H. destruct (Hv H) as [Hv' | Hv']; [left | right; right]; exact Hv'.
      * destruct (RawOptions.in_ opts); [exact I |].
        destruct Hi as [Hi | Hi]; [left; exact Hi |].
        right. apply dangling_cons, Hi.
      * destruct (RawOptions.out opts); [exact I |].
        destruct Ho as [Ho | Ho]; [left; exact Ho |].
        right. apply dangling_cons, Ho.
    + destruct IHbl as [Hc Hh]. split; [exact Hc |].
      destruct Hh as [Hh | Hh]; [left | right]; right; exact Hh.
Qed.

Lemma parseArgs_loop_quiet (args : list string) :
  forall o0, Forall quiet (snd (parseArgs_loop args o0)).
Proof.
  induction args as [| a | a b l IHl IHbl] using list_pair_ind; intros o0.
  - constructor.
  - rewrite parseArgs_loop_cons. cbv beta iota.
    destruct (String.eqb a "--in" || String.eqb a "--input"); [constructor |].
    destruct (String.eqb a "--out" || String.eqb a "--output"); [constructor |].
    destruct (String.eqb a "--dry-run"); [constructor |].
    destruct (String.eqb a "--verbose"); [constructor |].
    destruct (String.eqb a "--help" || String.eqb a "-h");
      repeat constructor.
  - rewrite parseArgs_loop_cons. cbv beta iota.
    destruct (String.eqb a "--in" || String.eqb a "--input"); [apply IHl |].
    destruct (String.eqb a "--out" || String.eqb a "--output"); [apply IHl |].
    destruct (String.eqb a "--dry-run"); [apply IHbl |].
    destruct (String.eqb a "--verbose"); [apply IHbl |].
    destruct (String.eqb a "--help" || String.eqb a "-h");
      [repeat constructor |].
    specialize (IHbl o0). destruct (parseArgs_loop (b :: l) o0) as [r evs].
    constructor; [exact I | exact IHbl].
Qed.

(** X14.  [parseArgs] turns on only what is asked for: it returns
    [dryRun] true only when "--dry-run" is among the arguments, and
    [verbose] true only when "--verbose" is. *)
Theorem parseArgs_turns_on_only_what_is_asked
    (args : list string) (opts : RawOptions.t) :
  fst (parseArgs args) = Parsed opts ->
  (if RawOptions.dryRun opts then In "--dry-run" args else True)
  /\ (if RawOptions.verbose opts then In "--verbose" args else True).
Proof.
  intros Hparse. unfold parseArgs in Hparse.
  pose proof (parseArgs_loop_sound args
                (RawOptions.mk (Some "data/raw") (Some "data/error") false false))
    as H.
  rewrite Hparse in H. destruct H as (Hd & Hv & _). cbn in Hd, Hv. split.
  - destruct (RawOptions.dryRun opts); [| exact I].
    destruct (Hd eq_refl) as [Hf | Hin]; [discriminate Hf | exact Hin].
  - destruct (RawOptions.verbose opts); [| exact I].
    destruct (Hv eq_refl) as [Hf | Hin]; [discriminate Hf | exact Hin].
Qed.

Lemma parseArgs_turns_on_only_what_is_asked_witness :
  fst (parseArgs ["--out"; "tmp"; "--dry-run"])
  = Parsed (RawOptions.mk (Some "data/raw") (Some "tmp") true false)
  /\ In "--dry-run" ["--out"; "tmp"; "--dry-run"].
Proof.
  split; [reflexivity |].
  exact (proj1 (parseArgs_turns_on_only_what_is_asked
                  ["--out"; "tmp"; "--dry-run"]
                  (RawOptions.mk (Some "data/raw") (Some "tmp") true false)
                  eq_refl)).
Defined.

(** X15.  [parseArgs] leaves the process only through the help flag:
    when it exits, the status is 0 and "--help" or "-h" is among the
    arguments. *)
Theorem parseArgs_exits_only_for_help (args : list string) :
  match fst (parseArgs args) with
  | Parsed _ => True
  | Exited code => code = 0%Z /\ (In "--help" args \/ In "-h" args)
  end.
Proof.
  pose proof (parseArgs_loop_sound args
                (RawOptions.mk (Some "data/raw") (Some "data/error") false false))
    as H.
  unfold parseArgs. destruct (fst (parseArgs_loop args _)); [exact I | exact H].
Qed.

(** X16.  The directories [parseArgs] returns are undefined only
    when the command line ends with the flag that wants them: [in] when
    the last argument is "--in" or "--input", [out] when it is "--out"
    or "--output". *)
Theorem parseArgs_directory_undefined_only_when_dangling (args : list string) :
  match fst (parseArgs args) with
  | Parsed opts =>
      match RawOptions.in_ opts with
      | None => dangling args "--in" "--input"
      | Some _ => True
      end
      /\ match RawOptions.out opts with
         | None => dangling args "--out" "--output"
         | Some _ => True
         end
  | Exited _ => True
  end.
Proof.
  pose proof (parseArgs_loop_sound args
                (RawOptions.mk (Some "data/raw") (Some "data/error") false false))
    as H.
  unfold parseArgs. destruct (fst (parseArgs_loop args _)) as [opts |]; [| exact I].
  destruct H as (_ & _ & Hi & Ho).
  split.
  - destruct (RawOptions.in_ opts); [exact I |].
    destruct Hi as [Hi | Hi]; [discriminate Hi | exact Hi].
  - destruct (RawOptions.out opts); [exact I |].
    destruct Ho as [Ho | Ho]; [discriminate Ho | exact Ho].
Qed.

(** X17.  The status the script ends with.  It calls [process.exit]
    with 2 only when alphaTab cannot be loaded, having printed only the
    missing-dependency message; with 0 only when [parseArgs] exits for
    the help flag, and then nothing but console output has happened and
    the outside world is as it was; with 1 only when [main] has
    rejected, after the output of [main] and then "Fatal error:" with
    the very value [main] rejected with.  When it runs to its end,
    [main] has returned. *)
Theorem script_exit_status {S Bytes Score} (w : World S Bytes Score)
    (installed : bool) (args : list string) (s : S) :
  match script w installed args s with
  | (None, s', evs) =>
      installed = true
      /\ exists raw pevs mevs,
           parseArgs args = (Parsed raw, pevs)
           /\ main_of w raw s = (Ok tt, s', mevs)
           /\ evs = (pevs ++ mevs)%list
  | (Some code, s', evs) =>
      (code = 2%Z /\ installed = false /\ s' = s
       /\ evs = [EvConsoleError [VStr missing_dependency]])
      \/ (code = 0%Z /\ installed = true /\ s' = s /\ Forall quiet evs
          /\ parseArgs args = (Exited 0%Z, evs)
          /\ (In "--help" args \/ In "-h" args))
      \/ (code = 1%Z /\ installed = true
          /\ exists raw pevs err mevs,
               parseArgs args = (Parsed raw, pevs)
               /\ main_of w raw s = (Throw err, s', mevs)
               /\ evs = (pevs ++ mevs
                          ++ [EvConsoleError [VStr "Fatal error:"; err]])%list)
  end.
Proof.
  unfold script. destruct installed; [| left; auto].
  pose proof (Hsound := parseArgs_loop_sound args
                (RawOptions.mk (Some "data/raw") (Some "data/error") false false)).
  pose proof (parseArgs_loop_quiet args
                (RawOptions.mk (Some "data/raw") (Some "data/error") false false))
    as Hq.
  unfold parseArgs.
  destruct (parseArgs_loop args _) as [[raw | code] evs];
    cbn [fst snd] in *.
  - destruct (main_of w raw s) as [[[[] | err] s'] evs'] eqn:Hmain.
    + split; [reflexivity |]. exists raw, evs, evs'. auto.
    + right. right. split; [reflexivity |]. split; [reflexivity |].
      exists raw, evs, err, evs'. auto.
  - right. left. destruct Hsound as [-> Hh]. repeat split; auto.
Qed.

(** ** Standard output *)

Lemma stdout_of_app (a b : list event) :
  stdout_of (a ++ b) = (stdout_of a ++ stdout_of b)%list.
Proof.
  induction a as [| ev a IH]; [reflexivity |].
  destruct ev; cbn; rewrite ?IH; reflexivity.
Qed.

Lemma stdout_of_off (evs : list event) :
  Forall off_stdout evs -> stdout_of evs = [].
Proof.
  induction 1 as [| ev evs Hev _ IH]; [reflexivity |].
  destruct ev; cbn in Hev |- *; try exact IH; destruct Hev.
Qed.

Lemma files_output_app (verbose : bool) (total : nat) (a b : list FileResult.t) :
  forall i,
    files_output verbose total i (a ++ b)
    = (files_output verbose total i a
       ++ files_output verbose total (i + List.length a) b)%list.
Proof.
  induction a as [| r a IH]; intros i; cbn [files_output app List.length].
  - rewrite Nat.add_0_r. reflexivity.
  - rewrite IH. replace (i + 1 + List.length a) with (i + S (List.length a)) by lia.
    cbn [app]. rewrite <- !app_assoc. reflexivity.
Qed.

Section StandardOutput.
Context {S Bytes Score : Type}.
Variable w : World S Bytes Score.

Lemma triple_off_call (ev : event) (f : S -> option string * S) :
  off_stdout ev -> triple (fs_call ev f) (fun _ => True) is_node_error off_stdout.
Proof.
  intros Hv s. unfold fs_call.
  destruct (f s) as [[msg |] s']; cbn;
    (split; [repeat constructor; exact Hv |]); [exists msg; reflexivity | exact I].
Qed.

Lemma triple_off_guarded (m : M S unit) (label : string) :
  triple m (fun _ => True) is_node_error off_stdout ->
  triple
    (try_catch m
       (fun e => bind (lift (js_get e "message"))
                   (fun msg => console_error [VStr label; msg])))
    (fun _ => True) is_node_error off_stdout.
Proof.
  intros Hm. eapply triple_try_catch; [exact Hm |].
  intros e [msg ->].
  eapply triple_bind with (P := fun _ => True).
  - apply triple_lift. rewrite js_get_node_error_message. exact I.
  - intros a _. apply triple_emit; exact I.
Qed.

(** The try statement of [processFile] prints nothing on standard
    output, and what it returns is a [passed] or a [failed] result. *)
Lemma triple_processFile_try inDir outDir fileName options :
  let inputPath := path_join w inDir fileName in
  let atexName :=
    (path_basename w fileName (path_extname w fileName) ++ ".atex")%string in
  triple
    (try_assign (processFile_export w inputPath)
       (processFile_reimport w fileName atexName)
       (fun atex =>
          processFile_catch w outDir inputPath fileName atexName options
            match atex with
            | Some text => VStr text
            | None => VNull
            end))
    (fun r => r = passedResult fileName atexName
              \/ failed_shape fileName atexName r)
    is_rejection off_stdout.
Proof.
  intros inputPath atexName.
  eapply triple_try_assign with (P := fun _ => True) (E := fun _ => True).
  - unfold processFile_export.
    eapply triple_bind with (P := fun _ => True).
    { intros s. unfold readFile, fs_query.
      destruct (fs_readFile w inputPath s) as [[a | msg] s'];
        split; repeat constructor. }
    intros data _.
    eapply triple_bind with (P := fun _ => True).
    { apply triple_lift. destruct (loadScoreFromBytes w data); exact I. }
    intros score _. apply triple_lift.
    destruct (exportToString w score); exact I.
  - intros text _. unfold processFile_reimport.
    eapply triple_bind with (P := fun _ => True).
    { apply triple_lift. destruct (initFromString w text); exact I. }
    intros _ _.
    eapply triple_bind with (P := fun _ => True).
    { apply triple_lift. destruct (readScore w text); exact I. }
    intros _ _. apply triple_ret. left. reflexivity.
  - intros x e. unfold processFile_catch.
    eapply triple_bind.
    { eapply triple_weaken; [apply triple_normalize | | ]; cbv beta.
      - intros d Hd. exact Hd.
      - intros e' ->. right. reflexivity. }
    intros d _.
    eapply triple_bind with (P := fun _ => True).
    + eapply triple_weaken with (Q := fun _ => True) (E := is_node_error);
        [| auto | exact node_error_is_rejection].
      destruct (Options.dryRun options); cbn [negb];
        [apply triple_ret; exact I |].
      eapply triple_bind with (P := fun _ => True);
        [apply triple_off_call; exact I |].
      intros _ _.
      eapply triple_bind with (P := fun _ => True).
      { apply triple_off_guarded. unfold copyFile.
        eapply triple_bind with (P := fun _ => True);
          [apply triple_off_call; exact I |].
        intros _ _. apply triple_off_call. exact I. }
      intros _ _.
      eapply triple_bind with (P := fun _ => True);
        [apply triple_off_call; exact I |].
      intros _ _. apply triple_off_guarded, triple_off_call. exact I.
    + intros _ _. apply triple_ret. right. exists d.
      unfold diagnosticsTotal. rewrite !length_or_0_length. reflexivity.
Qed.

(** [processFile] prints the "Processing:" line when verbose and
    nothing else. *)
Lemma processFile_output inDir outDir fileName options (s : S) :
  let atexName :=
    (path_basename w fileName (path_extname w fileName) ++ ".atex")%string in
  exists r s' evs,
    processFile w inDir outDir fileName options s = (r, s', evs)
    /\ stdout_of evs
       = (if Options.verbose options
          then [Line [VStr ("Processing: " ++ fileName)]] else [])
    /\ match r with
       | Ok res => res = passedResult fileName atexName
                   \/ failed_shape fileName atexName res
       | Throw e => is_rejection e
       end.
Proof.
  intros atexName.
  pose proof (triple_processFile_try inDir outDir fileName options s) as Htry.
  cbv zeta in Htry. fold atexName in Htry.
  unfold processFile. cbv zeta. fold atexName. unfold bind.
  destruct (Options.verbose options); unfold console_log, emit, ret;
    cbv beta iota; revert Htry;
    match goal with
    | |- context [try_assign ?a ?b ?c s] =>
        destruct (try_assign a b c s) as [[r s'] evs]
    end;
    intros [Hev Hout]; cbn in Hev, Hout;
    (do 3 eexists; split; [reflexivity |]);
    cbn [app stdout_of]; rewrite (stdout_of_off evs Hev);
    (split; [reflexivity | exact Hout]).
Qed.

(** One iteration prints the progress text, the "Processing:" line
    when verbose, and the line of the result it pushes. *)
Lemma main_step_output inDir outDir opts total i fileName results logLines (s : S) :
  exists st s' evs r,
    main_step w inDir outDir opts total i fileName results logLines s
    = (Ok st, s', evs)
    /\ fst st = (results ++ [r])%list
    /\ stdout_of evs = files_output (Options.verbose opts) total i [r].
Proof.
  destruct (processFile_output inDir outDir fileName opts s)
    as (r & s1 & ev1 & Hrun & Hev1 & Hout).
  unfold main_step, stdout_write, emit.
  unfold bind at 1. unfold try_catch. unfold bind at 1. rewrite Hrun.
  destruct r as [res | e].
  - assert (Hin : FileResult.input res = fileName)
      by (destruct Hout as [-> | [d ->]]; reflexivity).
    cbv zeta.
    destruct (Status_eqb (FileResult.status res) passed) eqn:Hst;
      unfold bind, console_log, emit, ret;
      (do 3 eexists; exists res; split; [reflexivity |];
       split; [reflexivity |]);
      cbn [app stdout_of files_output]; rewrite !stdout_of_app, Hev1, Hin;
      cbn [stdout_of]; rewrite app_nil_r; unfold progress, result_line.
    + destruct Hout as [-> | [d ->]]; [reflexivity | discriminate Hst].
    + destruct Hout as [-> | [d ->]]; [discriminate Hst | reflexivity].
  - destruct (rejection_message e Hout) as [msg Hmsg].
    unfold bind, lift, console_error, emit, ret. rewrite Hmsg.
    cbv beta iota. cbn [js_String].
    do 3 eexists. exists (errorResult fileName (VStr msg)).
    split; [reflexivity |]. split; [reflexivity |].
    cbn [app stdout_of files_output]. rewrite !stdout_of_app, Hev1.
    cbn [stdout_of]. rewrite !app_nil_r. reflexivity.
Qed.

Lemma main_loop_output inDir outDir opts total rest :
  forall i results logLines (s : S),
    exists st s' evl new,
      main_loop w inDir outDir opts total i rest results logLines s
      = (Ok st, s', evl)
      /\ fst st = (results ++ new)%list
      /\ stdout_of evl = files_output (Options.verbose opts) total i new.
Proof.
  induction rest as [| fileName rest IH]; intros i results logLines s.
  - exists (results, logLines), s, [], []. rewrite app_nil_r. auto.
  - cbn [main_loop]. unfold bind.
    destruct (main_step_output inDir outDir opts total i fileName results
                logLines s) as (st & s' & evs & r & -> & Hst & Hevs).
    destruct (IH (i + 1) (fst st) (snd st) s')
      as (st2 & s2 & evl & new & -> & Hst2 & Hevl).
    exists st2, s2, (evs ++ evl)%list, (r :: new).
    split; [reflexivity |]. split.
    + rewrite Hst2, Hst, <- app_assoc. reflexivity.
    + rewrite stdout_of_app, Hevs, Hevl.
      change (r :: new) with ([r] ++ new)%list.
      rewrite files_output_app. reflexivity.
Qed.

(** X20.  The standard output of [main].  When the output directory
    cannot be created or the input directory cannot be listed it is the
    three opening lines.  Otherwise a report [b] is handed to
    [fs.writeFile] and the output is the opening lines, then for each result of [b], in order,
    the progress text "[k/n] name ... ", the "Processing:" line when
    verbose and "OK" or "FAILED (c errors)" for a passed or a failed
    file (nothing for an [error] one, whose message goes to standard
    error), and then the summary lines when [main] returns, and
    nothing more when the write of the report or of the log is
    rejected. *)
Theorem main_standard_output (opts : Options.t) (s : S) :
  let run := main w opts s in
  match fs_mkdir w (path_resolve w (Options.out opts)) s with
  | (Some _, _) => stdout_of (events run) = stdout_of (main_banner w opts)
  | (None, s1) =>
      match fs_readdir w (path_resolve w (Options.in_ opts)) s1 with
      | (inr _, _) => stdout_of (events run) = stdout_of (main_banner w opts)
      | (inl files, _) =>
          exists b,
            reports_of (events run) = [b]
            /\ stdout_of (events run)
               = (stdout_of (main_banner w opts)
                  ++ files_output (Options.verbose opts)
                       (Summary.totalFiles b) 0 (Summary.results b)
                  ++ match outcome run with
                     | Ok _ => stdout_of (main_footer w opts b)
                     | Throw _ => []
                     end)%list
      end
  end.
Proof.
  intros run. subst run.
  pose proof (main_unfold w opts s) as H. cbv zeta in H.
  assert (Hbanner : reports_of (main_banner w opts) = []) by reflexivity.
  assert (Hfooter : forall b', reports_of (main_footer w opts b') = []).
  { intros b'. unfold main_footer. destruct (Options.verbose opts); reflexivity. }
  destruct (fs_mkdir w (path_resolve w (Options.out opts)) s) as [[msg |] s1].
  { rewrite H. unfold events. cbn [snd]. rewrite stdout_of_app.
    cbn [stdout_of]. apply app_nil_r. }
  destruct (fs_readdir w (path_resolve w (Options.in_ opts)) s1)
    as [[files | msg] s2].
  2: { rewrite H. unfold events. cbn [snd]. rewrite !stdout_of_app.
       cbn [stdout_of]. rewrite !app_nil_r. reflexivity. }
  destruct (main_loop_output (path_resolve w (Options.in_ opts))
              (path_resolve w (Options.out opts)) opts
              (List.length (filter is_gp5 files)) (filter is_gp5 files)
              0 [] [] s2) as (st & s3 & evl & new & Hloop & Hnew & Hout).
  pose proof (triple_main_loop w (path_resolve w (Options.in_ opts))
                (path_resolve w (Options.out opts)) opts
                (List.length (filter is_gp5 files)) (filter is_gp5 files)
                0 [] [] s2) as [Hev _].
  rewrite Hloop in H, Hev. cbn in Hev. cbn [app] in Hnew. subst new.
  set (b := summary_of w opts (toISOString w s3) files (fst st)) in *.
  exists b.
  change (Summary.results b) with (fst st).
  change (Summary.totalFiles b) with (List.length (filter is_gp5 files)).
  destruct (fs_writeFile w _ (CReport _) s3) as [[msg |] s4].
  { rewrite H. unfold events, outcome. cbn [fst snd].
    rewrite !reports_of_app, !stdout_of_app, Hbanner,
      (reports_of_not_report evl Hev), Hout.
    cbn [stdout_of reports_of app]. rewrite !app_nil_r. split; reflexivity. }
  destruct (fs_writeFile w _ (CText _) s4) as [[msg |] s5];
    rewrite H; unfold events, outcome; cbn [fst snd];
    rewrite !reports_of_app, !stdout_of_app, Hbanner,
      (reports_of_not_report evl Hev), ?Hfooter, Hout;
    cbn [stdout_of reports_of app]; rewrite ?app_nil_r; split; reflexivity.
Qed.

End StandardOutput.
